(** * BaatCheet secret uploaders: [push_secrets_to_hf.py] and [upload_secrets.py]

    A shallow embedding of the two scripts and the properties their
    specification states about them.

    - [PyStr]   : the Python [str] operations the scripts use
                  ([strip], [startswith], [in], [split], slicing, [str(int)]).
    - [PyDict]  : the insertion-ordered [dict] keyed by [str].
    - [Py]      : exceptions, the process state and the script monad.
    - [EnvFile] : the loop that reads the [.env] file and the allow-list
                  loop, which the two scripts share word for word.
    - [Push]    : [push_secrets_to_hf.py], the remote-call variant.
    - [Upload]  : [upload_secrets.py], the manual-instructions variant.
    - [Spec]    : the vocabulary of the specification (records of a file,
                  allowed keys, hub answers, the lines of the summary).
    - [Scenario]: sample hubs and processes for the end-to-end scenarios.
    - [Output]  : the lines the scripts print, and what a mask hides.

    The lemmas follow: facts about strings, dictionaries and the shared
    code, then the properties of parsing and filtering, then those of the
    remote-call script, then further properties of the parser, of the
    order of the records, of the runs of both scripts and of masking. *)

From Stdlib Require Import List NArith ZArith Arith Lia Bool Permutation Sorted.
From Stdlib Require String Ascii Decimal.
Import ListNotations String.StringSyntax.

Set Implicit Arguments.

(* ================================================================== *)
(** ** Python strings *)

Module PyStr.

(** A Python [str] is a sequence of Unicode code points. *)
Definition char := N.
Definition str := list char.

(** The code points of an ASCII literal. *)
Definition u (s : String.string) : str :=
  map Ascii.N_of_ascii (String.list_ascii_of_string s).
Arguments u s%_string_scope.

Definition dquote : char := 34%N.   (* the double quote, U+0022 *)
Definition squote : char := 39%N.   (* the single quote, U+0027 *)
Definition newline : char := 10%N.

(** [c.isspace()] for one code point: the table behind [str.strip()]. *)
Definition isspace (c : char) : bool :=
  ((9 <=? c) && (c <=? 13) || (28 <=? c) && (c <=? 32)
   || (c =? 133) || (c =? 160) || (c =? 5760)
   || (8192 <=? c) && (c <=? 8202)
   || (c =? 8232) || (c =? 8233) || (c =? 8239) || (c =? 8287)
   || (c =? 12288))%N.

(** [c in chars] for a one-character [c]. *)
Definition char_in (chars : str) (c : char) : bool := existsb (N.eqb c) chars.

Fixpoint lstrip_by (p : char -> bool) (s : str) : str :=
  match s with
  | [] => []
  | c :: t => if p c then lstrip_by p t else s
  end.

Definition rstrip_by (p : char -> bool) (s : str) : str :=
  rev (lstrip_by p (rev s)).

Definition strip_by (p : char -> bool) (s : str) : str :=
  rstrip_by p (lstrip_by p s).

(** [s.strip()] *)
Definition strip (s : str) : str := strip_by isspace s.

(** [s.strip(chars)] *)
Definition strip_chars (chars s : str) : str := strip_by (char_in chars) s.

(** [s.startswith(prefix)] *)
Fixpoint startswith (s prefix : str) {struct prefix} : bool :=
  match prefix, s with
  | [], _ => true
  | _ :: _, [] => false
  | p :: prefix', c :: s' => (c =? p)%N && startswith s' prefix'
  end.

(** [sub in s] *)
Fixpoint str_in (sub s : str) {struct s} : bool :=
  startswith s sub ||
  match s with
  | [] => false
  | _ :: t => str_in sub t
  end.

(** [s.partition(sep)], [None] when [sep] does not occur. *)
Fixpoint find_split (sep s : str) {struct s} : option (str * str) :=
  if startswith s sep then Some ([], skipn (length sep) s)
  else match s with
       | [] => None
       | c :: t =>
           match find_split sep t with
           | Some (a, b) => Some (c :: a, b)
           | None => None
           end
       end.

(** [s.split(sep, 1)] for a non-empty [sep]. *)
Definition split1 (sep s : str) : list str :=
  match find_split sep s with
  | Some (a, b) => [a; b]
  | None => [s]
  end.

(** Slice bounds as [PySlice_AdjustIndices] clamps them for step 1. *)
Definition slice_index (len : nat) (i : Z) : nat :=
  if (i <? 0)%Z then Z.to_nat (Z.max 0 (Z.of_nat len + i))
  else Nat.min (Z.to_nat i) len.

(** [s[start:stop]]; [None] is an omitted bound. *)
Definition slice (s : str) (start stop : option Z) : str :=
  let n := length s in
  let a := match start with None => 0 | Some i => slice_index n i end in
  let b := match stop with None => n | Some j => slice_index n j end in
  firstn (b - a) (skipn a s).

(** [s * n] *)
Definition repeat_str (s : str) (n : nat) : str := concat (repeat s n).

(** [str(n)] for a non-negative [int]. *)
Fixpoint digits (d : Decimal.uint) : str :=
  match d with
  | Decimal.Nil => []
  | Decimal.D0 d => 48%N :: digits d
  | Decimal.D1 d => 49%N :: digits d
  | Decimal.D2 d => 50%N :: digits d
  | Decimal.D3 d => 51%N :: digits d
  | Decimal.D4 d => 52%N :: digits d
  | Decimal.D5 d => 53%N :: digits d
  | Decimal.D6 d => 54%N :: digits d
  | Decimal.D7 d => 55%N :: digits d
  | Decimal.D8 d => 56%N :: digits d
  | Decimal.D9 d => 57%N :: digits d
  end.

Definition str_of_nat (n : nat) : str := digits (Nat.to_uint n).

(** [a == b] *)
Definition str_eqb (a b : str) : bool :=
  if list_eq_dec N.eq_dec a b then true else false.

(** Ordering of [str]: code point by code point, a proper prefix first. *)
Fixpoint str_cmp (a b : str) : comparison :=
  match a, b with
  | [], [] => Eq
  | [], _ :: _ => Lt
  | _ :: _, [] => Gt
  | x :: a', y :: b' =>
      match (x ?= y)%N with
      | Eq => str_cmp a' b'
      | c => c
      end
  end.

(** [x in xs] for a list of [str]. *)
Definition in_list (x : str) (xs : list str) : bool := existsb (str_eqb x) xs.

End PyStr.

(* ================================================================== *)
(** ** Python dictionaries and [sorted] *)

Module PyDict.
Import PyStr.

(** A [dict] from [str] to [str]: its items in insertion order, each key
    at most once. *)
Definition dict := list (str * str).

Definition empty : dict := [].

(** [d.get(k)] *)
Fixpoint get (d : dict) (k : str) : option str :=
  match d with
  | [] => None
  | (k', v') :: d' => if str_eqb k' k then Some v' else get d' k
  end.

(** [d[k] = v]: an existing key keeps its place, a new key goes last. *)
Fixpoint set (d : dict) (k v : str) : dict :=
  match d with
  | [] => [(k, v)]
  | (k', v') :: d' =>
      if str_eqb k' k then (k', v) :: d' else (k', v') :: set d' k v
  end.

Definition items (d : dict) : list (str * str) := d.
Definition keys (d : dict) : list str := map fst d.
Definition len (d : dict) : nat := length d.

(** Ordering of [(str, str)] tuples: first components first. *)
Definition item_cmp (a b : str * str) : comparison :=
  match str_cmp (fst a) (fst b) with
  | Eq => str_cmp (snd a) (snd b)
  | c => c
  end.

Section Sorted.
Variable A : Type.
Variable cmp : A -> A -> comparison.

Fixpoint insert (x : A) (l : list A) : list A :=
  match l with
  | [] => [x]
  | y :: l' =>
      match cmp x y with
      | Gt => y :: insert x l'
      | _ => x :: l
      end
  end.

(** [sorted(l)]: ascending and stable. *)
Definition sorted (l : list A) : list A := fold_right insert [] l.
End Sorted.

End PyDict.

(* ================================================================== *)
(** ** Exceptions, the process and the script monad *)

Module Py.
Import PyStr.

Inductive exn_class := OSError | ValueError | KeyError | EOFError | HubError.

Inductive exn :=
| Exception (cls : exn_class) (msg : str)   (* [str(e) = msg] *)
| SystemExit (code : nat).

Inductive result (A : Type) :=
| Ok (a : A)
| Raise (e : exn).
Arguments Ok {A} a.
Arguments Raise {A} e.

(** What a script can observe and change.  [H] is the state of the remote
    hub behind [HfApi]. *)
Record world (H : Type) := World {
  env_file : option (list str);
      (* the lines that iterating the file at [env_file] yields;
         [None] when [open] fails *)
  environ_HF_TOKEN : option str;      (* [os.environ.get('HF_TOKEN')] *)
  stdin : list str;                   (* lines still to be read *)
  stdout : list str;                  (* what was written, oldest first *)
  hub : H;
  hub_calls : list (str * str * str * str)
      (* [(token, repo_id, key, value)] of each [add_space_secret] *)
}.

Section Monad.
Variable H : Type.

(** The remote operation: the new hub state and [Some msg] when the
    call raises an [Exception] whose [str] is [msg]. *)
Variable hub_add_space_secret :
  H -> str -> str -> str -> str -> H * option str.

Definition M (A : Type) : Type := world H -> result A * world H.

Definition ret {A} (a : A) : M A := fun w => (Ok a, w).

Definition bind {A B} (c : M A) (k : A -> M B) : M B :=
  fun w =>
    match c w with
    | (Ok a, w') => k a w'
    | (Raise e, w') => (Raise e, w')
    end.

Definition raise {A} (e : exn) : M A := fun w => (Raise e, w).

Definition lift {A} (r : result A) : M A := fun w => (r, w).

Definition write (s : str) : M unit :=
  fun w => (Ok tt,
            World (env_file w) (environ_HF_TOKEN w) (stdin w)
                  (stdout w ++ [s]) (hub w) (hub_calls w)).

(** [print(s)] *)
Definition print (s : str) : M unit := write (s ++ [newline]).

(** [input(prompt)] *)
Definition input (prompt : str) : M str :=
  bind (write prompt) (fun _ w =>
    match stdin w with
    | [] => (Raise (Exception EOFError (u "EOF when reading a line")), w)
    | l :: rest =>
        (Ok l, World (env_file w) (environ_HF_TOKEN w) rest
                     (stdout w) (hub w) (hub_calls w))
    end).

(** [os.environ.get('HF_TOKEN')] *)
Definition environ_get_HF_TOKEN : M (option str) :=
  fun w => (Ok (environ_HF_TOKEN w), w).

(** [open(env_file, 'r')] followed by iterating the file. *)
Definition open_lines : M (list str) :=
  fun w =>
    match env_file w with
    | Some ls => (Ok ls, w)
    | None => (Raise (Exception OSError (u "No such file or directory")), w)
    end.

(** [sys.exit(code)] *)
Definition sys_exit {A} (code : nat) : M A := raise (SystemExit code).

(** [HfApi(token=token).add_space_secret(repo_id=.., key=.., value=..)] *)
Definition add_space_secret (token repo_id key value : str) : M unit :=
  fun w =>
    let (h', r) := hub_add_space_secret (hub w) token repo_id key value in
    let w' := World (env_file w) (environ_HF_TOKEN w) (stdin w) (stdout w)
                    h' (hub_calls w ++ [(token, repo_id, key, value)]) in
    match r with
    | None => (Ok tt, w')
    | Some msg => (Raise (Exception HubError msg), w')
    end.

(** [try: body except Exception as e: handler(str(e))] *)
Definition try_except {A} (body : M A) (handler : str -> M A) : M A :=
  fun w =>
    match body w with
    | (Raise (Exception _ msg), w') => handler msg w'
    | r => r
    end.

(** [for x in xs: body(x)] *)
Fixpoint for_each {A} (xs : list A) (body : A -> M unit) : M unit :=
  match xs with
  | [] => ret tt
  | x :: rest => bind (body x) (fun _ => for_each rest body)
  end.

(** The exit status of the interpreter after running a script. *)
Definition exit_status {A} (r : result A) : nat :=
  match r with
  | Ok _ => 0
  | Raise (SystemExit code) => code
  | Raise (Exception _ _) => 1
  end.
End Monad.

Arguments ret {H A} a.
Arguments raise {H A} e.
Arguments lift {H A} r.
Arguments print {H} s.
Arguments input {H} prompt.
Arguments environ_get_HF_TOKEN {H}.
Arguments open_lines {H}.
Arguments sys_exit {H A} code.

(** Truth value of a [str] and of an optional [str]. *)
Definition truthy (s : str) : bool :=
  match s with [] => false | _ :: _ => true end.

Definition truthy_opt (o : option str) : bool :=
  match o with None => false | Some s => truthy s end.

End Py.

Declare Scope py_scope.
Delimit Scope py_scope with py.
Notation "x <- c ;; k" := (Py.bind c (fun x => k))
  (at level 61, c at next level, right associativity) : py_scope.
Notation "c ;; k" := (Py.bind c (fun _ => k))
  (at level 61, right associativity) : py_scope.

(* ================================================================== *)
(** ** The code the two scripts share *)

Module EnvFile.
Import PyStr PyDict Py.

(** [value.strip(DQ).strip(SQ)], where [DQ] is the one-character string
    holding a double quote and [SQ] the one holding a single quote. *)
Definition unquote (value : str) : str :=
  strip_chars [squote] (strip_chars [dquote] value).

(** [value and not value.startswith('your')
     and not value.startswith('sk_test')] *)
Definition is_real (value : str) : bool :=
  truthy value && negb (startswith value (u "your"))
  && negb (startswith value (u "sk_test")).

(** The body of [for line in f:]. *)
Definition read_line (secrets : dict) (line : str) : result dict :=
  let line := strip line in
  if truthy line && negb (startswith line (u "#")) && str_in (u "=") line
  then
    match split1 (u "=") line with
    | [key; value] =>
        let value := unquote value in
        if is_real value
        then Ok (set secrets key value)
        else Ok secrets
    | _ =>
        Raise (Exception ValueError (u "not enough values to unpack"))
    end
  else Ok secrets.

(** [for line in f: ...] starting from the mapping [secrets]. *)
Fixpoint read_lines (secrets : dict) (lines : list str) : result dict :=
  match lines with
  | [] => Ok secrets
  | line :: rest =>
      match read_line secrets line with
      | Ok secrets' => read_lines secrets' rest
      | Raise e => Raise e
      end
  end.

(** [secrets = {}; with open(env_file, 'r') as f: for line in f: ...] *)
Definition read_env {H} : M H dict :=
  (lines <- open_lines ;; lift (read_lines empty lines))%py.

Definition api_prefixes : list str :=
  [ u "GROQ_API_KEY"; u "DEEPSEEK_API_KEY"; u "OPENROUTER_API_KEY";
    u "HUGGINGFACE_API_KEY"; u "GEMINI_API_KEY"; u "OCR_SPACE_API_KEY";
    u "BRAVE_SEARCH_KEY"; u "SERPAPI_KEY"; u "ELEVENLABS_API_KEY" ].

Section Filter.
Variable important_keys : list str.

(** [for prefix in api_prefixes: if key.startswith(prefix): ...; break] *)
Fixpoint prefix_loop (prefixes : list str) (filtered_secrets : dict)
         (key value : str) : dict :=
  match prefixes with
  | [] => filtered_secrets
  | prefix :: rest =>
      if startswith key prefix then set filtered_secrets key value
      else prefix_loop rest filtered_secrets key value
  end.

(** The body of [for key, value in secrets.items():]. *)
Definition filter_step (filtered_secrets : dict) (kv : str * str) : dict :=
  let (key, value) := kv in
  if in_list key important_keys then set filtered_secrets key value
  else prefix_loop api_prefixes filtered_secrets key value.

(** [filtered_secrets = {}; for key, value in secrets.items(): ...] *)
Definition filter_secrets (secrets : dict) : dict :=
  fold_left filter_step (items secrets) empty.
End Filter.

End EnvFile.

(* ================================================================== *)
(** ** [push_secrets_to_hf.py]: the remote-call variant *)

(** The script starts by importing [HfApi], installing the package when
    the import fails; the embedding starts after a successful import. *)

Module Push.
Import PyStr PyDict Py EnvFile.
Local Open Scope py_scope.

Definition important_keys : list str := [ u "JWT_SECRET" ].

Definition repo_id : str := u "sharry121/baatcheet".

(** [value[:6] + '...' + value[-4:] if len(value) > 14 else value[:4] + '...'] *)
Definition masked (value : str) : str :=
  if 14 <? length value
  then slice value None (Some 6%Z) ++ u "..." ++ slice value (Some (-4)%Z) None
  else slice value None (Some 4%Z) ++ u "...".

Definition check_mark : str := [9989%N].            (* U+2705 *)
Definition cross_mark : str := [10060%N].           (* U+274C *)
Definition warning_sign : str := [9888%N; 65039%N]. (* U+26A0 U+FE0F *)

Section Script.
Variable H : Type.
Variable hub_add_space_secret :
  H -> str -> str -> str -> str -> H * option str.

(** The prompt taken when [HF_TOKEN] is unset or empty. *)
Definition ask_token : M H str :=
  print ([newline] ++ u "You need to provide your HuggingFace token.") ;;
  print (u "Get it from: https://huggingface.co/settings/tokens") ;;
  print (u "Make sure it has 'write' permissions.") ;;
  line <- input ([newline] ++ u "Enter your HuggingFace token: ") ;;
  ret (strip line).

(** The body of [for key, value in sorted(filtered_secrets.items()):],
    with the two counters passed along. *)
Definition upload_one (hf_token : str) (counts : nat * nat)
           (kv : str * str) : M H (nat * nat) :=
  let (success_count, fail_count) := counts in
  let (key, value) := kv in
  try_except
    (add_space_secret hub_add_space_secret hf_token repo_id key value ;;
     print (check_mark ++ u " " ++ key ++ u ": " ++ masked value) ;;
     ret (success_count + 1, fail_count))
    (fun e =>
     print (cross_mark ++ u " " ++ key ++ u ": Failed - "
            ++ slice e None (Some 50%Z)) ;;
     ret (success_count, fail_count + 1)).

Fixpoint upload_loop (hf_token : str) (counts : nat * nat)
         (todo : list (str * str)) : M H (nat * nat) :=
  match todo with
  | [] => ret counts
  | kv :: rest =>
      counts' <- upload_one hf_token counts kv ;;
      upload_loop hf_token counts' rest
  end.

Definition main : M H unit :=
  secrets <- read_env ;;
  let filtered_secrets := filter_secrets important_keys secrets in
  print (u "Found " ++ str_of_nat (len filtered_secrets)
         ++ u " secrets to upload") ;;
  hf_token <- environ_get_HF_TOKEN ;;
  hf_token <- match hf_token with
              | Some t => if truthy t then ret t else ask_token
              | None => ask_token
              end ;;
  (if negb (truthy hf_token)
   then print (u "No token provided. Exiting.") ;; sys_exit 1
   else ret tt) ;;
  print ([newline] ++ u "Uploading secrets to " ++ repo_id ++ u "...") ;;
  print (repeat_str (u "=") 50) ;;
  counts <- upload_loop hf_token (0, 0)
              (sorted item_cmp (items filtered_secrets)) ;;
  let (success_count, fail_count) := counts in
  print (repeat_str (u "=") 50) ;;
  print ([newline] ++ u "Done! Uploaded " ++ str_of_nat success_count
         ++ u " secrets, " ++ str_of_nat fail_count ++ u " failed.") ;;
  if 0 <? success_count
  then
    print ([newline] ++ warning_sign
           ++ u "  IMPORTANT: You need to restart your Space for changes to take effect!") ;;
    print (u "Go to: https://huggingface.co/spaces/sharry121/baatcheet/settings") ;;
    print (u "Click 'Restart this Space' or 'Factory reboot'")
  else ret tt.
End Script.

End Push.

(* ================================================================== *)
(** ** [upload_secrets.py]: the manual-instructions variant *)

Module Upload.
Import PyStr PyDict Py EnvFile.
Local Open Scope py_scope.

Definition important_keys : list str :=
  [ u "DATABASE_URL"; u "JWT_SECRET"; u "NODE_ENV";
    u "CLERK_PUBLISHABLE_KEY"; u "CLERK_SECRET_KEY";
    u "DEFAULT_MODEL"; u "MAX_CONTEXT_MESSAGES"; u "MAX_TOKENS" ].

(** [val[:8] + '...' + val[-4:] if len(val) > 16 else val[:4] + '...'] *)
Definition masked (val : str) : str :=
  if 16 <? length val
  then slice val None (Some 8%Z) ++ u "..." ++ slice val (Some (-4)%Z) None
  else slice val None (Some 4%Z) ++ u "...".

Section Script.
Variable H : Type.

(** [filtered_secrets[key]] *)
Definition getitem (d : dict) (key : str) : M H str :=
  match get d key with
  | Some v => ret v
  | None => raise (Exception KeyError key)
  end.

Definition main : M H unit :=
  secrets <- read_env ;;
  let filtered_secrets := filter_secrets important_keys secrets in
  print (u "Found " ++ str_of_nat (len filtered_secrets)
         ++ u " secrets to upload:") ;;
  for_each (sorted str_cmp (keys filtered_secrets)) (fun key =>
    val <- getitem filtered_secrets key ;;
    print (u "  - " ++ key ++ u ": " ++ masked val)) ;;
  print ([newline] ++ repeat_str (u "=") 50) ;;
  print (u "SECRETS TO ADD TO HUGGINGFACE SPACE:") ;;
  print (repeat_str (u "=") 50) ;;
  print ([newline]
         ++ u "Go to: https://huggingface.co/spaces/sharry121/baatcheet/settings") ;;
  print (u "Click 'Repository secrets' and add each of these:" ++ [newline]) ;;
  for_each (sorted str_cmp (keys filtered_secrets)) (fun key =>
    val <- getitem filtered_secrets key ;;
    print (key ++ u "=" ++ val)).
End Script.

End Upload.


(* ================================================================== *)
(** ** Vocabulary of the specification *)

Module Spec.
Import PyStr PyDict Py EnvFile.

(** The record a line of the file contributes to the mapping, if any:
    [read_line_entry] below shows that [read_line] stores exactly this. *)
Definition entry_of (line : str) : option (str * str) :=
  let line := strip line in
  if truthy line && negb (startswith line (u "#"))
  then match find_split (u "=") line with
       | Some (key, raw) =>
           if is_real (unquote raw) then Some (key, unquote raw) else None
       | None => None
       end
  else None.

(** The records of a file, in file order. *)
Fixpoint entries (lines : list str) : list (str * str) :=
  match lines with
  | [] => []
  | line :: rest =>
      match entry_of line with
      | Some kv => kv :: entries rest
      | None => entries rest
      end
  end.

(** A key passes the allow-list: it is an important key or starts with an
    API prefix. *)
Definition allowed (important_keys : list str) (key : str) : bool :=
  in_list key important_keys
  || existsb (startswith key) api_prefixes.

Definition is_quote (c : char) : bool := (c =? dquote)%N || (c =? squote)%N.

(** The first character of [s] satisfies [p]. *)
Definition head_sat (p : char -> bool) (s : str) : bool :=
  match s with
  | c :: _ => p c
  | [] => false
  end.

(** [secrets[key] = value] for a record [(key, value)]. *)
Definition store (secrets : dict) (kv : str * str) : dict :=
  set secrets (fst kv) (snd kv).

(** The mapping after storing the records [es] in order. *)
Definition build (secrets : dict) (es : list (str * str)) : dict :=
  fold_left store es secrets.

(** Quote stripping as the specification words it: one layer of matching
    leading and trailing quotes, and nothing else. *)
Definition strip_one_layer (value : str) : str :=
  match value with
  | q :: rest =>
      match rev rest with
      | q' :: inner_rev =>
          if is_quote q && (q =? q')%N then rev inner_rev else value
      | [] => value
      end
  | [] => value
  end.

(** The important keys of the manual-instructions variant that the
    remote-call variant does not list. *)
Definition manual_only_keys : list str :=
  [ u "DATABASE_URL"; u "NODE_ENV";
    u "CLERK_PUBLISHABLE_KEY"; u "CLERK_SECRET_KEY";
    u "DEFAULT_MODEL"; u "MAX_CONTEXT_MESSAGES"; u "MAX_TOKENS" ].

Section Hub.
Variable H : Type.
Variable hub_add_space_secret :
  H -> str -> str -> str -> str -> H * option str.

(** What the hub answers to the calls for [todo], made in this order
    from the state [h]. *)
Fixpoint outcomes (h : H) (token : str) (todo : list (str * str))
  : list (option str) :=
  match todo with
  | [] => []
  | (key, value) :: rest =>
      let (h', r) := hub_add_space_secret h token Push.repo_id key value in
      r :: outcomes h' token rest
  end.
(** The state of the hub after those calls. *)
Fixpoint hub_after (h : H) (token : str) (todo : list (str * str)) : H :=
  match todo with
  | [] => h
  | (key, value) :: rest =>
      hub_after (fst (hub_add_space_secret h token Push.repo_id key value))
                token rest
  end.
End Hub.

(** The token that a line typed at the prompt gives, and what is left of
    standard input after it: [input(...).strip()], when not empty. *)
Definition typed_token (input : list str) : option (str * list str) :=
  match input with
  | typed :: rest =>
      if truthy (strip typed) then Some (strip typed, rest) else None
  | [] => None
  end.

(** The token a run of the remote-call script works with, and what is left
    of standard input once it has it: [HF_TOKEN] when it is set and not
    empty, otherwise the line typed at the prompt, trimmed; [None] when
    neither gives a token. *)
Definition resolved_token (H : Type) (w : world H)
  : option (str * list str) :=
  match environ_HF_TOKEN w with
  | Some t => if truthy t then Some (t, stdin w) else typed_token (stdin w)
  | None => typed_token (stdin w)
  end.

Definition succeeded (r : option str) : bool :=
  match r with None => true | Some _ => false end.

Definition failed (r : option str) : bool := negb (succeeded r).

(** The call that [add_space_secret] logs for one record. *)
Definition call_of (token : str) (kv : str * str) : str * str * str * str :=
  (token, Push.repo_id, fst kv, snd kv).

(** The line printed for a failed upload. *)
Definition failure_line (key msg : str) : str :=
  Push.cross_mark ++ u " " ++ key ++ u ": Failed - " ++ firstn 50 msg
  ++ [newline].

(** The line printed for a successful upload. *)
Definition success_line (key shown : str) : str :=
  Push.check_mark ++ u " " ++ key ++ u ": " ++ shown ++ [newline].

(** The line printed after the call for the record [kv] answered [r]. *)
Definition report (kv : str * str) (r : option str) : str :=
  match r with
  | None => success_line (fst kv) (Push.masked (snd kv))
  | Some msg => failure_line (fst kv) msg
  end.

Definition reports (todo : list (str * str)) (outs : list (option str))
  : list str :=
  map (fun p => report (fst p) (snd p)) (combine todo outs).

(** The rule printed before and after the uploads. *)
Definition rule_line : str := repeat_str (u "=") 50 ++ [newline].

(** The summary line of the remote-call variant. *)
Definition summary_line (success_count fail_count : nat) : str :=
  [newline] ++ u "Done! Uploaded " ++ str_of_nat success_count
  ++ u " secrets, " ++ str_of_nat fail_count ++ u " failed." ++ [newline].

End Spec.

(* ================================================================== *)
(** ** Sample hubs and processes *)

Module Scenario.
Import PyStr PyDict Py.

(** A hub that accepts every secret. *)
Definition hub_ok (h : unit) (token repo_id key value : str)
  : unit * option str := (tt, None).

(** A hub that rejects the secret named [bad] and accepts the others. *)
Definition hub_rejecting (bad : str) (h : unit)
           (token repo_id key value : str) : unit * option str :=
  (tt, if str_eqb key bad then Some (u "403 Forbidden") else None).

(** A process about to start: the file holds [lines], [HF_TOKEN] is
    [token], and [typed] is what the user will type. *)
Definition start (lines : list str) (token : option str) (typed : list str)
  : world unit :=
  World (Some lines) token typed [] tt [].

Definition three_keys : list str :=
  [ u "GROQ_API_KEY_1=gsk_first_key_0001";
    u "JWT_SECRET=a-long-jwt-signing-secret";
    u "GEMINI_API_KEY=AIzaSyExample" ].

Definition groq_line : str :=
  u "GROQ_API_KEY_1=" ++ [dquote] ++ u "sk_live_abc123xyz789" ++ [dquote].

End Scenario.

(* ================================================================== *)
(** ** What the scripts print *)

Module Output.
Import PyStr PyDict Py Spec.

(** The first line of the remote-call variant. *)
Definition found_line (n : nat) : str :=
  u "Found " ++ str_of_nat n ++ u " secrets to upload" ++ [newline].

(** The first line of the manual-instructions variant. *)
Definition found_line_manual (n : nat) : str :=
  u "Found " ++ str_of_nat n ++ u " secrets to upload:" ++ [newline].

(** The masked line the manual-instructions variant prints for a record. *)
Definition preview_line (key val : str) : str :=
  u "  - " ++ key ++ u ": " ++ Upload.masked val ++ [newline].

(** The line the manual-instructions variant prints for copying. *)
Definition plain_line (key val : str) : str :=
  key ++ u "=" ++ val ++ [newline].

(** [d[k]] where the key is known to be present. *)
Definition value_at (d : dict) (k : str) : str :=
  match get d k with
  | Some v => v
  | None => []
  end.

(** Records in strictly ascending order of their keys. *)
Definition keys_ascending (l : list (str * str)) : Prop :=
  Sorted (fun a b => str_cmp (fst a) (fst b) = Lt) l.

(** The characters of [v] that a mask showing the first [n] and the last 4
    leaves out. *)
Definition hidden (n : nat) (v : str) : str :=
  firstn (length v - n - 4) (skipn n v).

End Output.

(* ================================================================== *)
(** ** Facts about strings *)

Module PyStrFacts.
Import PyStr Spec.

Lemma str_eqb_eq (a b : str) : str_eqb a b = true <-> a = b.
Proof.
  unfold str_eqb. destruct (list_eq_dec N.eq_dec a b); split; congruence.
Qed.

Lemma str_eqb_refl (a : str) : str_eqb a a = true.
Proof. now apply str_eqb_eq. Qed.

Lemma str_eqb_neq (a b : str) : str_eqb a b = false <-> a <> b.
Proof.
  unfold str_eqb. destruct (list_eq_dec N.eq_dec a b); split; congruence.
Qed.

Lemma in_list_In (x : str) (xs : list str) : in_list x xs = true <-> In x xs.
Proof.
  unfold in_list. rewrite existsb_exists. split.
  - intros (y & Hy & E). apply str_eqb_eq in E. now subst.
  - intros Hx. exists x. split; [assumption | apply str_eqb_refl].
Qed.

Lemma startswith_app (p t : str) : startswith (p ++ t) p = true.
Proof.
  induction p as [|c p IH]; simpl; [reflexivity|].
  now rewrite N.eqb_refl, IH.
Qed.

Lemma startswith_inv (s p : str) :
  startswith s p = true -> s = p ++ skipn (length p) s.
Proof.
  revert s. induction p as [|c p IH]; intros s Hs; simpl in *.
  - reflexivity.
  - destruct s as [|d s]; [discriminate|].
    apply andb_true_iff in Hs. destruct Hs as [E Hs].
    apply N.eqb_eq in E. subst d. simpl. f_equal. now apply IH.
Qed.

Lemma startswith_cons_neq (c d : char) (s p : str) :
  c <> d -> startswith (c :: s) (d :: p) = false.
Proof.
  intros Hcd. simpl. apply N.eqb_neq in Hcd. now rewrite Hcd.
Qed.

(** *** Splitting at one character *)

Lemma find_split_char (c : char) (a b : str) :
  ~ In c a -> find_split [c] (a ++ c :: b) = Some (a, b).
Proof.
  induction a as [|d a IH]; intros Hc.
  - simpl. now rewrite N.eqb_refl.
  - assert (Hdc : (d =? c)%N = false).
    { apply N.eqb_neq. intros ->. apply Hc. now left. }
    cbn [app find_split startswith]. rewrite Hdc. cbn [andb].
    rewrite IH; [reflexivity|]. intros Hin. apply Hc. now right.
Qed.

Lemma str_in_char_split (c : char) (s : str) :
  str_in [c] s = true -> exists a b, s = a ++ c :: b /\ ~ In c a.
Proof.
  induction s as [|d s IH]; intros Hs.
  - discriminate.
  - cbn [str_in startswith] in Hs.
    destruct (N.eqb_spec d c) as [->|Hdc].
    + exists [], s. split; [reflexivity | intros []].
    + cbn [andb orb] in Hs. destruct (IH Hs) as (a & b & -> & Ha).
      exists (d :: a), b. split; [reflexivity|].
      intros [E|Hin]; [now apply Hdc | now apply Ha].
Qed.

Lemma str_in_char_app (c : char) (a b : str) : str_in [c] (a ++ c :: b) = true.
Proof.
  induction a as [|d a IH].
  - simpl. now rewrite N.eqb_refl.
  - cbn [app str_in]. rewrite IH. apply orb_true_r.
Qed.

Lemma str_in_char_In (c : char) (s : str) : str_in [c] s = false -> ~ In c s.
Proof.
  intros Hs Hin. apply in_split in Hin. destruct Hin as (a & b & ->).
  now rewrite str_in_char_app in Hs.
Qed.

Lemma find_split_char_inv (c : char) (s a b : str) :
  find_split [c] s = Some (a, b) -> s = a ++ c :: b /\ ~ In c a.
Proof.
  revert a. induction s as [|d s IH]; intros a Hs.
  - discriminate.
  - cbn [find_split startswith] in Hs.
    destruct (N.eqb_spec d c) as [->|Hdc].
    + cbn in Hs. inversion Hs; subst. split; [reflexivity | intros []].
    + cbn [andb] in Hs. destruct (find_split [c] s) as [[a' b']|] eqn:E;
        [|discriminate].
      inversion Hs; subst. destruct (IH a' eq_refl) as [-> Ha].
      split; [reflexivity|].
      intros [E'|Hin]; [now apply Hdc | now apply Ha].
Qed.

Lemma split1_char_in (c : char) (s : str) :
  str_in [c] s = true -> exists a b, split1 [c] s = [a; b].
Proof.
  intros Hs. destruct (str_in_char_split _ _ Hs) as (a & b & -> & Ha).
  exists a, b. unfold split1. now rewrite find_split_char.
Qed.

(** *** Stripping *)

Lemma lstrip_by_split (p : char -> bool) (s : str) :
  exists a, s = a ++ lstrip_by p s /\ forallb p a = true.
Proof.
  induction s as [|c s (a & E & Ha)].
  - exists []. now split.
  - simpl. destruct (p c) eqn:Hc.
    + exists (c :: a). simpl. rewrite Hc, Ha. split; [now f_equal | reflexivity].
    + exists []. now split.
Qed.

Lemma lstrip_by_head (p : char -> bool) (s : str) :
  head_sat p (lstrip_by p s) = false.
Proof.
  induction s as [|c s IH]; simpl; [reflexivity|].
  destruct (p c) eqn:Hc; [assumption | simpl; assumption].
Qed.

Lemma lstrip_by_id (p : char -> bool) (s : str) :
  head_sat p s = false -> lstrip_by p s = s.
Proof. destruct s as [|c s]; simpl; [reflexivity|]. now intros ->. Qed.

Lemma lstrip_by_snoc (p : char -> bool) (s : str) (c : char) :
  p c = false -> lstrip_by p (s ++ [c]) = lstrip_by p s ++ [c].
Proof.
  intros Hc. induction s as [|d s IH]; simpl.
  - now rewrite Hc.
  - destruct (p d); [assumption | reflexivity].
Qed.

Lemma rstrip_by_split (p : char -> bool) (s : str) :
  exists b, s = rstrip_by p s ++ b /\ forallb p b = true.
Proof.
  unfold rstrip_by. destruct (lstrip_by_split p (rev s)) as (a & E & Ha).
  exists (rev a). split.
  - rewrite <- rev_app_distr, <- E. symmetry. apply rev_involutive.
  - rewrite forallb_forall in *. intros x Hx. apply Ha. now apply in_rev.
Qed.

Lemma rstrip_by_last (p : char -> bool) (s : str) :
  head_sat p (rev (rstrip_by p s)) = false.
Proof. unfold rstrip_by. rewrite rev_involutive. apply lstrip_by_head. Qed.

Lemma rstrip_by_id (p : char -> bool) (s : str) :
  head_sat p (rev s) = false -> rstrip_by p s = s.
Proof.
  intros Hs. unfold rstrip_by. rewrite lstrip_by_id by assumption.
  apply rev_involutive.
Qed.

Lemma rstrip_by_cons (p : char -> bool) (c : char) (s : str) :
  p c = false -> rstrip_by p (c :: s) = c :: rstrip_by p s.
Proof.
  intros Hc. unfold rstrip_by. simpl rev.
  rewrite lstrip_by_snoc by assumption. now rewrite rev_app_distr.
Qed.

Lemma rstrip_by_snoc (p : char -> bool) (s : str) (c : char) :
  p c = true -> rstrip_by p (s ++ [c]) = rstrip_by p s.
Proof.
  intros Hc. unfold rstrip_by. rewrite rev_app_distr. simpl. now rewrite Hc.
Qed.

Lemma rstrip_by_head (p : char -> bool) (s : str) :
  head_sat p s = false -> head_sat p (rstrip_by p s) = false.
Proof.
  intros Hs. destruct (rstrip_by_split p s) as (b & E & _).
  destruct (rstrip_by p s) as [|c t]; [reflexivity|].
  rewrite E in Hs. exact Hs.
Qed.

(** [strip_by p] removes a run of [p]-characters at each end and leaves a
    string with no [p]-character at either end. *)
Lemma strip_by_split (p : char -> bool) (s : str) :
  exists a b,
    s = a ++ strip_by p s ++ b
    /\ forallb p a = true /\ forallb p b = true
    /\ head_sat p (strip_by p s) = false
    /\ head_sat p (rev (strip_by p s)) = false.
Proof.
  unfold strip_by.
  destruct (lstrip_by_split p s) as (a & Ea & Ha).
  destruct (rstrip_by_split p (lstrip_by p s)) as (b & Eb & Hb).
  exists a, b. repeat split; try assumption.
  - now rewrite <- Eb.
  - apply rstrip_by_head, lstrip_by_head.
  - apply rstrip_by_last.
Qed.

Lemma strip_by_id (p : char -> bool) (s : str) :
  head_sat p s = false -> head_sat p (rev s) = false -> strip_by p s = s.
Proof.
  intros H1 H2. unfold strip_by. rewrite lstrip_by_id by assumption.
  now apply rstrip_by_id.
Qed.

Lemma strip_by_cons (p : char -> bool) (c : char) (s : str) :
  p c = false -> strip_by p (c :: s) = c :: rstrip_by p s.
Proof.
  intros Hc. unfold strip_by. rewrite lstrip_by_id by exact Hc.
  now apply rstrip_by_cons.
Qed.

Lemma char_in_single (c d : char) : char_in [c] d = (d =? c)%N.
Proof. unfold char_in. simpl. apply orb_false_r. Qed.

(** *** Slices *)

Lemma slice_prefix (s : str) (n : nat) :
  slice s None (Some (Z.of_nat n)) = firstn n s.
Proof.
  unfold slice, slice_index.
  destruct (Z.ltb_spec (Z.of_nat n) 0) as [Hn|_]; [lia|].
  rewrite Nat2Z.id, Nat.sub_0_r. cbn [skipn].
  destruct (Nat.le_ge_cases n (length s)) as [Hle|Hge].
  - now rewrite Nat.min_l.
  - rewrite Nat.min_r by assumption.
    now rewrite !firstn_all2 by lia.
Qed.

Lemma slice_suffix (s : str) (n : nat) :
  0 < n -> slice s (Some (- Z.of_nat n)%Z) None = skipn (length s - n) s.
Proof.
  intros Hn. unfold slice, slice_index.
  destruct (Z.ltb_spec (- Z.of_nat n) 0) as [_|Hge]; [|lia].
  replace (Z.to_nat (Z.max 0 (Z.of_nat (length s) + - Z.of_nat n)))
    with (length s - n) by lia.
  apply firstn_all2. rewrite length_skipn. lia.
Qed.

End PyStrFacts.

(* ================================================================== *)
(** ** Facts about dictionaries *)

Module PyDictFacts.
Import PyStr PyDict Spec PyStrFacts.

Lemma get_set_same (d : dict) (k v : str) : get (set d k v) k = Some v.
Proof.
  induction d as [|[k' v'] d IH]; simpl.
  - now rewrite str_eqb_refl.
  - destruct (str_eqb k' k) eqn:E; simpl; now rewrite E.
Qed.

Lemma get_set_other (d : dict) (k k' v : str) :
  k <> k' -> get (set d k v) k' = get d k'.
Proof.
  intros Hk. induction d as [|[k0 v0] d IH]; simpl.
  - apply str_eqb_neq in Hk. now rewrite Hk.
  - destruct (str_eqb k0 k) eqn:E; simpl.
    + apply str_eqb_eq in E. subst k0.
      apply str_eqb_neq in Hk. now rewrite Hk.
    + now rewrite IH.
Qed.

Lemma keys_set (d : dict) (k v k' : str) :
  In k' (keys (set d k v)) <-> k' = k \/ In k' (keys d).
Proof.
  induction d as [|[k0 v0] d IH]; simpl.
  - intuition.
  - destruct (str_eqb k0 k) eqn:E; simpl.
    + apply str_eqb_eq in E. subst k0. intuition.
    + unfold keys in IH. rewrite IH. intuition.
Qed.

Lemma set_NoDup (d : dict) (k v : str) :
  NoDup (keys d) -> NoDup (keys (set d k v)).
Proof.
  induction d as [|[k0 v0] d IH]; simpl; intros Hd.
  - constructor; [intros [] | constructor].
  - inversion Hd as [|? ? Hnin Hd']; subst.
    destruct (str_eqb k0 k) eqn:E; simpl.
    + now constructor.
    + constructor; [|now apply IH].
      intros Hin. apply keys_set in Hin. destruct Hin as [->|Hin].
      * now rewrite str_eqb_refl in E.
      * now apply Hnin.
Qed.

Lemma set_fresh (d : dict) (k v : str) :
  ~ In k (keys d) -> set d k v = d ++ [(k, v)].
Proof.
  induction d as [|[k0 v0] d IH]; simpl; intros Hk; [reflexivity|].
  destruct (str_eqb k0 k) eqn:E.
  - apply str_eqb_eq in E. exfalso. apply Hk. now left.
  - f_equal. apply IH. intros Hin. apply Hk. now right.
Qed.

Lemma get_None (d : dict) (k : str) : get d k = None <-> ~ In k (keys d).
Proof.
  induction d as [|[k0 v0] d IH]; simpl.
  - intuition.
  - destruct (str_eqb k0 k) eqn:E.
    + apply str_eqb_eq in E. split; [discriminate | intros Hk; exfalso; auto].
    + apply str_eqb_neq in E. rewrite IH. intuition.
Qed.

Lemma get_In (d : dict) (k v : str) :
  NoDup (keys d) -> (get d k = Some v <-> In (k, v) d).
Proof.
  induction d as [|[k0 v0] d IH]; simpl; intros Hd.
  - split; [discriminate | intros []].
  - inversion Hd as [|? ? Hnin Hd']; subst.
    destruct (str_eqb k0 k) eqn:E.
    + apply str_eqb_eq in E. subst k0. split.
      * intros [= ->]. now left.
      * intros [[= ->]|Hin]; [reflexivity|].
        exfalso. apply Hnin. now apply (in_map fst) in Hin.
    + apply str_eqb_neq in E. rewrite (IH Hd'). split; [now right|].
      intros [[= -> ->]|Hin]; [now destruct E | assumption].
Qed.

Lemma get_filter (f : str -> bool) (d : dict) (k : str) :
  get (filter (fun kv => f (fst kv)) d) k = if f k then get d k else None.
Proof.
  induction d as [|[k0 v0] d IH]; simpl.
  - now destruct (f k).
  - destruct (str_eqb k0 k) eqn:E.
    + apply str_eqb_eq in E. subst k0.
      destruct (f k) eqn:Hf; simpl.
      * now rewrite str_eqb_refl.
      * exact IH.
    + destruct (f k0); simpl; [rewrite E|]; exact IH.
Qed.

(** *** Storing a sequence of records *)

Lemma build_NoDup (es : list (str * str)) (d : dict) :
  NoDup (keys d) -> NoDup (keys (build d es)).
Proof.
  revert d. induction es as [|[k v] es IH]; intros d Hd; simpl.
  - assumption.
  - apply IH. now apply set_NoDup.
Qed.

Lemma build_app (es1 es2 : list (str * str)) (d : dict) :
  build d (es1 ++ es2) = build (build d es1) es2.
Proof. apply fold_left_app. Qed.

Lemma get_build_other (es : list (str * str)) (d : dict) (k : str) :
  ~ In k (map fst es) -> get (build d es) k = get d k.
Proof.
  revert d. induction es as [|[k0 v0] es IH]; intros d Hk; simpl.
  - reflexivity.
  - rewrite IH by (intros Hin; apply Hk; now right).
    unfold store. simpl. apply get_set_other. intros ->. apply Hk. now left.
Qed.

(** The last record stored under a key is the one the mapping holds. *)
Lemma get_build_last (es1 es2 : list (str * str)) (d : dict) (k v : str) :
  ~ In k (map fst es2) -> get (build d (es1 ++ (k, v) :: es2)) k = Some v.
Proof.
  intros Hk. rewrite build_app. simpl.
  rewrite get_build_other by assumption. apply get_set_same.
Qed.

End PyDictFacts.

(* ================================================================== *)
(** ** Facts about the shared code *)

Module EnvFileFacts.
Import PyStr PyDict Py EnvFile Spec PyStrFacts PyDictFacts.

Lemma find_split_absent (c : char) (s : str) :
  str_in [c] s = false -> find_split [c] s = None.
Proof.
  intros Hs. destruct (find_split [c] s) as [[a b]|] eqn:E; [|reflexivity].
  apply find_split_char_inv in E. destruct E as [-> _].
  now rewrite str_in_char_app in Hs.
Qed.

(** [read_line] never raises: the unpacking of [split] always finds two
    parts, and what it stores is the record [entry_of] names. *)
Lemma read_line_entry (secrets : dict) (line : str) :
  read_line secrets line
  = Ok (match entry_of line with
        | Some kv => store secrets kv
        | None => secrets
        end).
Proof.
  unfold read_line, entry_of, split1.
  change (u "=") with [61%N].
  destruct (truthy (strip line) && negb (startswith (strip line) (u "#")));
    [|reflexivity].
  cbn [andb].
  destruct (str_in [61%N] (strip line)) eqn:Hin.
  - destruct (str_in_char_split _ _ Hin) as (a & b & E & Ha).
    rewrite E, find_split_char by assumption.
    now destruct (is_real (unquote b)).
  - now rewrite find_split_absent.
Qed.

Lemma read_lines_entries (lines : list str) (secrets : dict) :
  read_lines secrets lines = Ok (build secrets (entries lines)).
Proof.
  revert secrets. induction lines as [|line rest IH]; intros secrets.
  - reflexivity.
  - cbn [read_lines entries]. rewrite read_line_entry.
    destruct (entry_of line) as [kv|]; apply IH.
Qed.

Lemma entries_app (l1 l2 : list str) :
  entries (l1 ++ l2) = entries l1 ++ entries l2.
Proof.
  induction l1 as [|line l1 IH]; simpl; [reflexivity|].
  destruct (entry_of line); simpl; now rewrite IH.
Qed.

Lemma entries_In (lines : list str) (kv : str * str) :
  In kv (entries lines) <-> exists line, In line lines /\ entry_of line = Some kv.
Proof.
  induction lines as [|line rest IH]; simpl.
  - split; [intros [] | intros (? & [] & _)].
  - destruct (entry_of line) as [kv'|] eqn:E; simpl; rewrite IH; split.
    + intros [->|(l & Hl & El)]; [exists line | exists l]; auto.
    + intros (l & [->|Hl] & El); [left; congruence | right; eauto].
    + intros (l & Hl & El). eauto.
    + intros (l & [->|Hl] & El); [congruence | eauto].
Qed.

Lemma entry_of_real (line key value : str) :
  entry_of line = Some (key, value) -> is_real value = true.
Proof.
  unfold entry_of.
  destruct (truthy (strip line) && negb (startswith (strip line) (u "#")));
    [|discriminate].
  destruct (find_split (u "=") (strip line)) as [[k raw]|]; [|discriminate].
  destruct (is_real (unquote raw)) eqn:E; [|discriminate].
  now intros [= _ <-].
Qed.

Lemma build_In (es : list (str * str)) (d : dict) (kv : str * str) :
  In kv (build d es) -> In kv d \/ In kv es.
Proof.
  revert d. induction es as [|[k v] es IH]; intros d; simpl.
  - now left.
  - intros Hin. destruct (IH _ Hin) as [Hd|Hes]; [|now right; right].
    unfold store in Hd. simpl in Hd. clear - Hd.
    induction d as [|[k0 v0] d IHd]; simpl in Hd.
    + destruct Hd as [<-|[]]. right. now left.
    + destruct (str_eqb k0 k) eqn:E.
      * apply str_eqb_eq in E. subst k0.
        destruct Hd as [<-|Hd]; [right; now left | left; now right].
      * destruct Hd as [<-|Hd]; [left; now left|].
        destruct (IHd Hd) as [?|?]; [left; now right | now right].
Qed.

(** *** The allow-list loop *)

Lemma prefix_loop_spec (prefixes : list str) (f : dict) (key value : str) :
  prefix_loop prefixes f key value
  = if existsb (startswith key) prefixes then set f key value else f.
Proof.
  induction prefixes as [|p ps IH]; simpl; [reflexivity|].
  now destruct (startswith key p).
Qed.

Lemma filter_step_spec (ik : list str) (f : dict) (key value : str) :
  filter_step ik f (key, value)
  = if allowed ik key then set f key value else f.
Proof.
  unfold filter_step, allowed. destruct (in_list key ik); [reflexivity|].
  apply prefix_loop_spec.
Qed.

Lemma fold_filter_step (ik : list str) (d acc : dict) :
  NoDup (keys (acc ++ d)) ->
  fold_left (filter_step ik) d acc
  = acc ++ filter (fun kv => allowed ik (fst kv)) d.
Proof.
  revert acc. induction d as [|[k v] d IH]; intros acc Hnd;
    cbn [fold_left filter fst].
  - now rewrite app_nil_r.
  - rewrite filter_step_spec.
    assert (Hk : ~ In k (keys acc)).
    { unfold keys in *. rewrite map_app in Hnd. simpl in Hnd.
      apply NoDup_remove_2 in Hnd. intros Hin. apply Hnd.
      apply in_or_app. now left. }
    destruct (allowed ik k).
    + rewrite set_fresh by assumption. rewrite IH.
      * now rewrite <- app_assoc.
      * now rewrite <- app_assoc.
    + apply IH. unfold keys in *. rewrite map_app in *. simpl in Hnd.
      now apply NoDup_remove_1 in Hnd.
Qed.

(** On a mapping with unique keys the allow-list loop is a [filter]: it
    keeps the allowed records, in their order. *)
Lemma filter_secrets_filter (ik : list str) (secrets : dict) :
  NoDup (keys secrets) ->
  filter_secrets ik secrets = filter (fun kv => allowed ik (fst kv)) secrets.
Proof.
  intros Hnd. unfold filter_secrets, items, empty.
  now rewrite fold_filter_step.
Qed.

Lemma allowed_iff (ik : list str) (key : str) :
  allowed ik key = true
  <-> In key ik \/ exists p, In p api_prefixes /\ startswith key p = true.
Proof.
  unfold allowed. rewrite orb_true_iff, in_list_In, existsb_exists.
  reflexivity.
Qed.

Lemma read_NoDup (lines : list str) : NoDup (keys (build empty (entries lines))).
Proof. apply build_NoDup. constructor. Qed.

End EnvFileFacts.

(* ================================================================== *)
(** ** Parsing and filtering: the properties of the specification *)

Import PyStr PyDict Py EnvFile Spec PyStrFacts PyDictFacts EnvFileFacts.

Lemma filter_filter_andb (A : Type) (f g : A -> bool) (l : list A) :
  filter f (filter g l) = filter (fun x => g x && f x) l.
Proof.
  induction l as [|x l IH]; simpl; [reflexivity|].
  destruct (g x); simpl; [destruct (f x)|]; now rewrite IH.
Qed.

(** The remote-call variant allows a key exactly when the manual variant
    allows it and it is not one of the manual-only important keys. *)
Lemma allowed_push_upload (key : str) :
  allowed Push.important_keys key
  = allowed Upload.important_keys key && negb (in_list key manual_only_keys).
Proof.
  destruct (in_list key manual_only_keys) eqn:E.
  - apply in_list_In in E. cbv [manual_only_keys In] in E.
    repeat destruct E as [<-|E]; try reflexivity. destruct E.
  - rewrite andb_true_r. unfold allowed. f_equal.
    cbv [in_list manual_only_keys existsb] in E.
    repeat (apply orb_false_iff in E; destruct E as [? E]).
    cbv [in_list Push.important_keys Upload.important_keys existsb].
    repeat match goal with H : str_eqb _ _ = false |- _ => rewrite H; clear H end.
    reflexivity.
Qed.

(** C1 (as stated, refuted): on the one-line file [NODE_ENV=production]
    the remote-call variant retains nothing while the manual-instructions
    variant retains the record, so the two retained sets differ. *)
Lemma variants_retain_different_sets :
  read_lines empty [u "NODE_ENV=production"]
  = Ok [(u "NODE_ENV", u "production")]
  /\ filter_secrets Push.important_keys [(u "NODE_ENV", u "production")] = []
  /\ filter_secrets Upload.important_keys [(u "NODE_ENV", u "production")]
     = [(u "NODE_ENV", u "production")]
  /\ filter_secrets Push.important_keys [(u "NODE_ENV", u "production")]
     <> filter_secrets Upload.important_keys [(u "NODE_ENV", u "production")].
Proof. repeat split; try reflexivity. vm_compute. discriminate. Qed.

(** C1 (amended): both variants read the file into the same mapping and
    use the same API prefixes; the remote-call variant retains exactly the
    records that the manual-instructions variant retains and whose key is
    not one of the seven important keys only the manual variant lists
    (DATABASE_URL, NODE_ENV, CLERK_PUBLISHABLE_KEY, CLERK_SECRET_KEY,
    DEFAULT_MODEL, MAX_CONTEXT_MESSAGES, MAX_TOKENS), in the same order. *)
Theorem push_retains_upload_without_manual_only (lines : list str) :
  exists secrets,
    read_lines empty lines = Ok secrets
    /\ filter_secrets Push.important_keys secrets
       = filter (fun kv => negb (in_list (fst kv) manual_only_keys))
                (filter_secrets Upload.important_keys secrets).
Proof.
  exists (build empty (entries lines)). split; [apply read_lines_entries|].
  rewrite !filter_secrets_filter by apply read_NoDup.
  rewrite filter_filter_andb. apply filter_ext.
  intros [k v]. apply allowed_push_upload.
Qed.

(** C5: for every file and either list of important keys, a record of the
    parsed mapping is in the retained mapping if and only if its key is an
    important key or starts with one of the API prefixes; a key matching
    neither is absent from the retained mapping. *)
Theorem allow_list_retains_iff (lines : list str) :
  exists secrets,
    read_lines empty lines = Ok secrets
    /\ forall important_keys key value,
         In important_keys [Push.important_keys; Upload.important_keys] ->
         (get (filter_secrets important_keys secrets) key = Some value
          <-> get secrets key = Some value
              /\ (In key important_keys
                  \/ exists prefix,
                       In prefix api_prefixes
                       /\ startswith key prefix = true))
         /\ (~ In key important_keys ->
             (forall prefix, In prefix api_prefixes ->
                             startswith key prefix = false) ->
             get (filter_secrets important_keys secrets) key = None).
Proof.
  exists (build empty (entries lines)). split; [apply read_lines_entries|].
  intros ik key value _.
  rewrite filter_secrets_filter by apply read_NoDup.
  rewrite get_filter, <- allowed_iff. split.
  - destruct (allowed ik key); intuition congruence.
  - intros Hk Hp. destruct (allowed ik key) eqn:E; [|reflexivity].
    apply allowed_iff in E. destruct E as [E|(p & Hin & E)].
    + now destruct Hk.
    + rewrite (Hp p Hin) in E. discriminate.
Qed.

Lemma allow_list_retains_iff_witness :
  exists secrets,
    read_lines empty [u "GROQ_API_KEY_2=gsk_1"; u "RANDOM_VAR=hello"]
    = Ok secrets
    /\ get (filter_secrets Push.important_keys secrets) (u "GROQ_API_KEY_2")
       = Some (u "gsk_1")
    /\ get (filter_secrets Push.important_keys secrets) (u "RANDOM_VAR")
       = None.
Proof.
  destruct (allow_list_retains_iff
              [u "GROQ_API_KEY_2=gsk_1"; u "RANDOM_VAR=hello"])
    as (secrets & Hread & Hspec).
  exists secrets. split; [exact Hread|].
  assert (Hs : secrets = [(u "GROQ_API_KEY_2", u "gsk_1");
                          (u "RANDOM_VAR", u "hello")]).
  { vm_compute in Hread. now inversion Hread. }
  split.
  - apply (Hspec Push.important_keys); [now left|]. split.
    + rewrite Hs. reflexivity.
    + right. exists (u "GROQ_API_KEY"). split; [now left | reflexivity].
  - apply (Hspec Push.important_keys _ []); [now left | |].
    + vm_compute. intros [E|[]]. discriminate.
    + intros p Hp. vm_compute in Hp.
      repeat destruct Hp as [<-|Hp]; try reflexivity. destruct Hp.
Defined.

(** C9: the keys of the parsed mapping are pairwise distinct, and when a
    key appears on several lines that pass the placeholder filter the
    mapping holds the value of the last of them in file order. *)
Theorem last_occurrence_wins (lines : list str) :
  exists secrets,
    read_lines empty lines = Ok secrets
    /\ NoDup (keys secrets)
    /\ forall before line after key value,
         lines = before ++ line :: after ->
         entry_of line = Some (key, value) ->
         (forall later v, In later after -> entry_of later <> Some (key, v)) ->
         get secrets key = Some value.
Proof.
  exists (build empty (entries lines)).
  split; [apply read_lines_entries|]. split; [apply read_NoDup|].
  intros before line after key value -> Hline Hafter.
  rewrite entries_app. cbn [entries]. rewrite Hline.
  apply get_build_last. intros Hin.
  apply in_map_iff in Hin. destruct Hin as ([k v] & Hk & Hin).
  simpl in Hk. subst k. apply entries_In in Hin.
  destruct Hin as (later & Hlater & E). exact (Hafter later v Hlater E).
Qed.

Lemma last_occurrence_wins_witness :
  exists secrets,
    read_lines empty [u "JWT_SECRET=one"; u "NODE_ENV=dev"; u "JWT_SECRET=two"]
    = Ok secrets
    /\ NoDup (keys secrets)
    /\ get secrets (u "JWT_SECRET") = Some (u "two").
Proof.
  destruct (last_occurrence_wins
              [u "JWT_SECRET=one"; u "NODE_ENV=dev"; u "JWT_SECRET=two"])
    as (secrets & Hread & Hnd & Hlast).
  exists secrets. split; [exact Hread|]. split; [exact Hnd|].
  apply (Hlast [u "JWT_SECRET=one"; u "NODE_ENV=dev"] (u "JWT_SECRET=two") []).
  - reflexivity.
  - reflexivity.
  - intros later v [].
Defined.

Lemma split1_two (s key raw : str) :
  split1 (u "=") s = [key; raw] -> find_split (u "=") s = Some (key, raw).
Proof.
  unfold split1. destruct (find_split (u "=") s) as [[a b]|].
  - now intros [= -> ->].
  - discriminate.
Qed.

Lemma split1_truthy (s key raw : str) :
  split1 (u "=") s = [key; raw] -> truthy s = true.
Proof.
  intros Hs. apply split1_two in Hs. destruct s; [discriminate | reflexivity].
Qed.

(** What [read_line] does with a line that splits into [key] and [raw]
    and is not a comment. *)
Lemma read_line_split (secrets : dict) (line key raw : str) :
  split1 (u "=") (strip line) = [key; raw] ->
  startswith (strip line) (u "#") = false ->
  read_line secrets line
  = Ok (if is_real (unquote raw) then set secrets key (unquote raw)
        else secrets).
Proof.
  intros Hsplit Hc. rewrite read_line_entry. unfold entry_of.
  rewrite (split1_truthy _ Hsplit), Hc, (split1_two _ Hsplit).
  cbn [andb negb]. now destruct (is_real (unquote raw)).
Qed.

(** C6: a line whose quote-stripped value is empty, or starts with [your],
    or starts with [sk_test], leaves the mapping as it was whatever its
    key, and the run reads the file as if the line were not there. *)
Theorem placeholder_line_excluded
        (before after : list str) (line key raw : str) :
  split1 (u "=") (strip line) = [key; raw] ->
  unquote raw = []
  \/ startswith (unquote raw) (u "your") = true
  \/ startswith (unquote raw) (u "sk_test") = true ->
  (forall secrets, read_line secrets line = Ok secrets)
  /\ read_lines empty (before ++ line :: after)
     = read_lines empty (before ++ after)
  /\ forall important_keys,
       match read_lines empty (before ++ line :: after) with
       | Ok secrets =>
           forall value,
             get (filter_secrets important_keys secrets) key = Some value ->
             is_real value = true
       | Raise _ => False
       end.
Proof.
  intros Hsplit Hph.
  assert (Hreal : is_real (unquote raw) = false).
  { unfold is_real. destruct Hph as [->|[->| ->]]; [reflexivity| |];
      cbn [negb]; now rewrite ?andb_false_r. }
  assert (Hentry : entry_of line = None).
  { unfold entry_of. rewrite (split1_two _ Hsplit), Hreal.
    now destruct (truthy (strip line) && _). }
  split; [|split].
  - intros secrets. now rewrite read_line_entry, Hentry.
  - rewrite !read_lines_entries, !entries_app. cbn [entries].
    now rewrite Hentry.
  - intros ik. rewrite read_lines_entries. intros value Hget.
    rewrite filter_secrets_filter, get_filter in Hget by apply read_NoDup.
    destruct (allowed ik key); [|discriminate].
    apply get_In in Hget; [|apply read_NoDup].
    apply build_In in Hget. destruct Hget as [[]|Hin].
    apply entries_In in Hin. destruct Hin as (l & _ & El).
    exact (entry_of_real _ El).
Qed.

Lemma placeholder_line_excluded_witness :
  (forall secrets,
      read_line secrets (u "JWT_SECRET=your-secret-here") = Ok secrets)
  /\ read_lines empty [u "JWT_SECRET=your-secret-here"] = Ok empty
  /\ In (u "JWT_SECRET") Push.important_keys
  /\ In (u "JWT_SECRET") Upload.important_keys.
Proof.
  destruct (placeholder_line_excluded [] []
              (u "JWT_SECRET=your-secret-here")
              (key := u "JWT_SECRET") (raw := u "your-secret-here"))
    as (Hline & Hfile & _).
  - reflexivity.
  - right. left. reflexivity.
  - split; [exact Hline|]. split; [exact Hfile|].
    split; [now left | right; now left].
Defined.

(** C4: the remote-call variant shows the first 6 and the last 4
    characters around an ellipsis when the value is longer than 14
    characters, the manual-instructions variant the first 8 and the last 4
    when it is longer than 16; both show the first 4 characters and an
    ellipsis otherwise. *)
Theorem masked_forms (v : str) :
  Push.masked v
  = (if 14 <? length v
     then firstn 6 v ++ u "..." ++ skipn (length v - 4) v
     else firstn 4 v ++ u "...")
  /\ Upload.masked v
     = (if 16 <? length v
        then firstn 8 v ++ u "..." ++ skipn (length v - 4) v
        else firstn 4 v ++ u "...").
Proof.
  unfold Push.masked, Upload.masked.
  change (Some 6%Z) with (Some (Z.of_nat 6)).
  change (Some 8%Z) with (Some (Z.of_nat 8)).
  change (Some 4%Z) with (Some (Z.of_nat 4)).
  change (Some (-4)%Z) with (Some (- Z.of_nat 4)%Z).
  rewrite !slice_prefix, slice_suffix by lia. split; reflexivity.
Qed.

(** *** Quote stripping *)

Lemma unquote_cons (c : char) (s : str) :
  is_quote c = false ->
  unquote (c :: s)
  = c :: rstrip_by (char_in [squote]) (rstrip_by (char_in [dquote]) s).
Proof.
  unfold is_quote. intros Hc. apply orb_false_iff in Hc. destruct Hc as [Hd Hs].
  unfold unquote, strip_chars.
  rewrite strip_by_cons by now rewrite char_in_single.
  now rewrite strip_by_cons by now rewrite char_in_single.
Qed.

Lemma head_sat_weaken (p q : char -> bool) (s : str) :
  (forall c, q c = true -> p c = true) ->
  head_sat p s = false -> head_sat q s = false.
Proof.
  intros Hpq. destruct s as [|c s]; simpl; [reflexivity|].
  intros Hp. destruct (q c) eqn:E; [|reflexivity].
  now rewrite (Hpq c E) in Hp.
Qed.

Lemma is_quote_dquote (c : char) : char_in [dquote] c = true -> is_quote c = true.
Proof. rewrite char_in_single. unfold is_quote. now intros ->. Qed.

Lemma is_quote_squote (c : char) : char_in [squote] c = true -> is_quote c = true.
Proof.
  rewrite char_in_single. unfold is_quote. intros ->. apply orb_true_r.
Qed.

(** A string with no quote at either end is left alone. *)
Lemma unquote_id (s : str) :
  head_sat is_quote s = false -> head_sat is_quote (rev s) = false ->
  unquote s = s.
Proof.
  intros Hh Hl. unfold unquote, strip_chars.
  rewrite (strip_by_id (char_in [dquote])).
  - apply strip_by_id.
    + exact (@head_sat_weaken _ _ _ is_quote_squote Hh).
    + exact (@head_sat_weaken _ _ _ is_quote_squote Hl).
  - exact (@head_sat_weaken _ _ _ is_quote_dquote Hh).
  - exact (@head_sat_weaken _ _ _ is_quote_dquote Hl).
Qed.

(** One pair of matching quotes around a string with no quote at either
    end is removed, and nothing more. *)
Lemma unquote_one_layer (q : char) (inner : str) :
  is_quote q = true ->
  head_sat is_quote inner = false -> head_sat is_quote (rev inner) = false ->
  unquote (q :: inner ++ [q]) = inner.
Proof.
  intros Hq Hh Hl.
  assert (Hstrip : forall p : char -> bool,
             p q = true -> (forall c, p c = true -> is_quote c = true) ->
             strip_by p (q :: inner ++ [q]) = inner).
  { intros p Hpq Hp. unfold strip_by. cbn [lstrip_by]. rewrite Hpq.
    destruct inner as [|c t].
    - cbn. now rewrite Hpq.
    - assert (Hc : p c = false).
      { destruct (p c) eqn:E; [|reflexivity].
        simpl in Hh. now rewrite (Hp c E) in Hh. }
      cbn [app lstrip_by]. rewrite Hc.
      change (c :: t ++ [q]) with ((c :: t) ++ [q]).
      rewrite rstrip_by_snoc by assumption.
      apply rstrip_by_id. exact (@head_sat_weaken _ _ _ Hp Hl). }
  unfold is_quote in Hq. apply orb_true_iff in Hq.
  destruct Hq as [E|E]; apply N.eqb_eq in E; subst q.
  - unfold unquote, strip_chars at 2.
    rewrite (Hstrip (char_in [dquote]) eq_refl is_quote_dquote).
    apply strip_by_id.
    + exact (@head_sat_weaken _ _ _ is_quote_squote Hh).
    + exact (@head_sat_weaken _ _ _ is_quote_squote Hl).
  - unfold unquote, strip_chars at 2.
    rewrite (strip_by_id (char_in [dquote])).
    + exact (Hstrip (char_in [squote]) eq_refl is_quote_squote).
    + reflexivity.
    + rewrite app_comm_cons, rev_app_distr. reflexivity.
Qed.

(** [unquote] takes off a run of double quotes and then a run of single
    quotes at each end. *)
Lemma unquote_split (value : str) :
  exists a1 a2 b2 b1,
    value = a1 ++ a2 ++ unquote value ++ b2 ++ b1
    /\ forallb (N.eqb dquote) (a1 ++ b1) = true
    /\ forallb (N.eqb squote) (a2 ++ b2) = true
    /\ head_sat (N.eqb squote) (unquote value) = false
    /\ head_sat (N.eqb squote) (rev (unquote value)) = false
    /\ head_sat (N.eqb dquote) (a2 ++ unquote value ++ b2) = false
    /\ head_sat (N.eqb dquote) (rev (a2 ++ unquote value ++ b2)) = false.
Proof.
  assert (Hp : forall q s, forallb (char_in [q]) s = forallb (N.eqb q) s).
  { intros q s. induction s as [|c s IH]; simpl; [reflexivity|].
    rewrite IH, orb_false_r. f_equal. apply N.eqb_sym. }
  assert (Hh : forall q s, head_sat (char_in [q]) s = head_sat (N.eqb q) s).
  { intros q [|c s]; simpl; [reflexivity|].
    rewrite orb_false_r. apply N.eqb_sym. }
  unfold unquote, strip_chars.
  destruct (strip_by_split (char_in [dquote]) value)
    as (a1 & b1 & E1 & Ha1 & Hb1 & Hd1 & Hd2).
  destruct (strip_by_split (char_in [squote])
                           (strip_by (char_in [dquote]) value))
    as (a2 & b2 & E2 & Ha2 & Hb2 & Hs1 & Hs2).
  exists a1, a2, b2, b1. split.
  - rewrite E1 at 1. rewrite E2 at 1. now rewrite <- !app_assoc.
  - rewrite <- !Hh, <- !Hp, !forallb_app, Ha1, Hb1, Ha2, Hb2, Hs1, Hs2.
    rewrite <- E2, Hd1, Hd2. repeat split.
Qed.

(** C3 (as stated, refuted): on the line [KEY=] followed by a double quote
    and [abc], the value has one unmatched leading quote; the parser stores
    [abc], while stripping one layer of matching quotes would leave the
    value as it is. *)
Lemma unmatched_quote_is_stripped :
  split1 (u "=") (strip (u "KEY=" ++ [dquote] ++ u "abc"))
  = [u "KEY"; [dquote] ++ u "abc"]
  /\ read_line empty (u "KEY=" ++ [dquote] ++ u "abc")
     = Ok [(u "KEY", u "abc")]
  /\ strip_one_layer ([dquote] ++ u "abc") = [dquote] ++ u "abc"
  /\ read_line empty (u "KEY=" ++ [dquote] ++ u "abc")
     <> Ok [(u "KEY", strip_one_layer ([dquote] ++ u "abc"))].
Proof. repeat split; try reflexivity. vm_compute. discriminate. Qed.

(** C3 (amended): for every line split on the first [=] the parser stores
    the value without its leading and trailing double quotes and then
    without the leading and trailing single quotes of what is left, however
    many there are and whether or not they match; a value wrapped in one
    pair of matching quotes loses only that pair when what is inside
    neither starts nor ends with a quote. *)
Theorem quotes_stripped_at_both_ends (secrets : dict) (line key raw : str) :
  split1 (u "=") (strip line) = [key; raw] ->
  startswith (strip line) (u "#") = false ->
  read_line secrets line
  = Ok (if is_real (unquote raw) then set secrets key (unquote raw)
        else secrets)
  /\ (exists a1 a2 b2 b1,
         raw = a1 ++ a2 ++ unquote raw ++ b2 ++ b1
         /\ forallb (N.eqb dquote) (a1 ++ b1) = true
         /\ forallb (N.eqb squote) (a2 ++ b2) = true
         /\ head_sat (N.eqb squote) (unquote raw) = false
         /\ head_sat (N.eqb squote) (rev (unquote raw)) = false
         /\ head_sat (N.eqb dquote) (a2 ++ unquote raw ++ b2) = false
         /\ head_sat (N.eqb dquote) (rev (a2 ++ unquote raw ++ b2)) = false)
  /\ (forall q inner,
         is_quote q = true ->
         raw = q :: inner ++ [q] ->
         head_sat is_quote inner = false ->
         head_sat is_quote (rev inner) = false ->
         unquote raw = inner).
Proof.
  intros Hsplit Hc. split; [now apply read_line_split|].
  split; [apply unquote_split|].
  intros q inner Hq -> Hh Hl. now apply unquote_one_layer.
Qed.

Lemma quotes_stripped_at_both_ends_witness :
  read_line empty (u "NAME=" ++ [dquote] ++ u "value" ++ [dquote])
  = Ok [(u "NAME", u "value")]
  /\ unquote ([dquote] ++ u "value" ++ [dquote]) = u "value".
Proof.
  destruct (quotes_stripped_at_both_ends empty
              (u "NAME=" ++ [dquote] ++ u "value" ++ [dquote])
              (key := u "NAME") (raw := [dquote] ++ u "value" ++ [dquote])
              eq_refl eq_refl)
    as (Hread & _ & Hone).
  split.
  - rewrite Hread. reflexivity.
  - apply (Hone dquote (u "value")); reflexivity.
Defined.

(** *** Whitespace around the equals sign *)

Lemma isspace_neq (c d : char) : isspace c = true -> isspace d = false -> c <> d.
Proof. congruence. Qed.

Lemma ends_in_space_not_listed (k : str) (c : char) (listed : list str) :
  isspace c = true ->
  forallb (fun s => negb (head_sat isspace (rev s))) listed = true ->
  in_list (k ++ [c]) listed = false.
Proof.
  intros Hc Hl. destruct (in_list (k ++ [c]) listed) eqn:E; [|reflexivity].
  apply in_list_In in E. rewrite forallb_forall in Hl.
  specialize (Hl _ E). rewrite rev_app_distr in Hl. simpl in Hl.
  now rewrite Hc in Hl.
Qed.

Lemma is_real_space (c : char) (s : str) :
  isspace c = true -> is_real (c :: s) = true.
Proof.
  intros Hc. unfold is_real. cbn [truthy andb].
  change (u "your") with (121%N :: u "our").
  change (u "sk_test") with (115%N :: u "k_test").
  rewrite !startswith_cons_neq; [reflexivity | |];
    apply isspace_neq; auto.
Qed.

(** C10 (as stated, refuted): the line [GROQ_API_KEY = abc] is retained by
    both variants, under the key that ends in the blank. *)
Lemma spaced_api_key_line_is_retained :
  read_lines empty [u "GROQ_API_KEY = abc"]
  = Ok [(u "GROQ_API_KEY ", u " abc")]
  /\ filter_secrets Push.important_keys [(u "GROQ_API_KEY ", u " abc")]
     = [(u "GROQ_API_KEY ", u " abc")]
  /\ filter_secrets Upload.important_keys [(u "GROQ_API_KEY ", u " abc")]
     = [(u "GROQ_API_KEY ", u " abc")]
  /\ filter_secrets Push.important_keys [(u "GROQ_API_KEY ", u " abc")] <> [].
Proof. repeat split; try reflexivity. vm_compute. discriminate. Qed.

(** C10 (amended): when the first [=] of a line has whitespace on both
    sides, only the whole line is trimmed: the whitespace before [=] stays
    the end of the key and the whitespace after [=] the start of the value,
    which therefore passes the placeholder filter.  Such a key is never one
    of the important keys of either variant, so the record is retained
    exactly when the key starts with one of the API prefixes. *)
Theorem spaced_line_kept_only_by_prefix
        (secrets filtered : dict) (line k rest : str) (c1 c2 : char) :
  strip line = k ++ [c1] ++ u "=" ++ [c2] ++ rest ->
  str_in (u "=") k = false ->
  startswith (strip line) (u "#") = false ->
  isspace c1 = true ->
  isspace c2 = true ->
  exists value_rest,
    read_line secrets line = Ok (set secrets (k ++ [c1]) (c2 :: value_rest))
    /\ in_list (k ++ [c1]) Push.important_keys = false
    /\ in_list (k ++ [c1]) Upload.important_keys = false
    /\ forall important_keys,
         In important_keys [Push.important_keys; Upload.important_keys] ->
         filter_step important_keys filtered (k ++ [c1], c2 :: value_rest)
         = if existsb (startswith (k ++ [c1])) api_prefixes
           then set filtered (k ++ [c1]) (c2 :: value_rest)
           else filtered.
Proof.
  intros Hline Hk Hc H1 H2.
  exists (rstrip_by (char_in [squote]) (rstrip_by (char_in [dquote]) rest)).
  assert (Hq : is_quote c2 = false).
  { unfold is_quote. apply orb_false_iff.
    split; apply N.eqb_neq; apply isspace_neq; auto. }
  assert (Hsplit : split1 (u "=") (strip line) = [k ++ [c1]; c2 :: rest]).
  { rewrite Hline. unfold split1. change (u "=") with [61%N].
    rewrite app_assoc. cbn [app].
    rewrite find_split_char; [reflexivity|].
    intros Hin. apply in_app_or in Hin. destruct Hin as [Hin|[E|[]]].
    - exact (str_in_char_In _ _ Hk Hin).
    - revert E. apply isspace_neq; auto. }
  assert (Hpush : in_list (k ++ [c1]) Push.important_keys = false)
    by now apply ends_in_space_not_listed.
  assert (Hupload : in_list (k ++ [c1]) Upload.important_keys = false)
    by now apply ends_in_space_not_listed.
  split; [|split; [exact Hpush | split; [exact Hupload|]]].
  - rewrite (read_line_split secrets line Hsplit Hc), (unquote_cons c2 rest Hq).
    now rewrite is_real_space.
  - intros ik [<-|[<-|[]]]; rewrite filter_step_spec; unfold allowed;
      now rewrite ?Hpush, ?Hupload.
Qed.

Lemma spaced_line_kept_only_by_prefix_witness :
  exists value_rest,
    read_line empty (u "JWT_SECRET = abc")
    = Ok [(u "JWT_SECRET ", 32%N :: value_rest)]
    /\ filter_step Push.important_keys empty
         (u "JWT_SECRET ", 32%N :: value_rest) = empty
    /\ filter_step Upload.important_keys empty
         (u "JWT_SECRET ", 32%N :: value_rest) = empty.
Proof.
  destruct (@spaced_line_kept_only_by_prefix empty empty
              (u "JWT_SECRET = abc") (u "JWT_SECRET") (u "abc") 32%N 32%N
              eq_refl eq_refl eq_refl eq_refl eq_refl)
    as (value_rest & Hread & _ & _ & Hstep).
  exists value_rest. split; [exact Hread|]. split.
  - exact (eq_trans (Hstep Push.important_keys (or_introl eq_refl)) eq_refl).
  - exact (eq_trans (Hstep Upload.important_keys (or_intror (or_introl eq_refl)))
                    eq_refl).
Defined.

(* ================================================================== *)
(** ** The remote-call script step by step *)

Section PushFacts.
Variable H : Type.
Variable hub_add_space_secret :
  H -> str -> str -> str -> str -> H * option str.

(** One round of the loop: the call is logged, one line is printed, one
    counter goes up, and no exception leaves the [try]. *)
Lemma upload_one_spec (token key value : str) (s f : nat) (w : world H) :
  Push.upload_one hub_add_space_secret token (s, f) (key, value) w
  = let r := hub_add_space_secret (hub w) token Push.repo_id key value in
    (Ok (if succeeded (snd r) then (s + 1, f) else (s, f + 1)),
     World (env_file w) (environ_HF_TOKEN w) (stdin w)
           (stdout w ++ [report (key, value) (snd r)])
           (fst r)
           (hub_calls w ++ [call_of token (key, value)])).
Proof.
  unfold Push.upload_one, try_except, bind, add_space_secret,
    print, write, ret, report, failure_line, success_line, call_of.
  destruct (hub_add_space_secret (hub w) token Push.repo_id key value)
    as [h' [msg|]];
    cbn [fst snd succeeded env_file environ_HF_TOKEN stdin stdout hub
         hub_calls].
  - rewrite <- (slice_prefix msg 50). now rewrite <- !app_assoc.
  - now rewrite <- !app_assoc.
Qed.

(** The whole loop: every record is sent, in order, whatever the hub
    answered to the earlier ones. *)
Lemma upload_loop_spec (token : str) (todo : list (str * str)) :
  forall (s f : nat) (w : world H),
    Push.upload_loop hub_add_space_secret token (s, f) todo w
    = let outs := outcomes hub_add_space_secret (hub w) token todo in
      (Ok (s + length (filter succeeded outs),
           f + length (filter failed outs)),
       World (env_file w) (environ_HF_TOKEN w) (stdin w)
             (stdout w ++ reports todo outs)
             (hub_after hub_add_space_secret (hub w) token todo)
             (hub_calls w ++ map (call_of token) todo)).
Proof.
  induction todo as [|[key value] rest IH]; intros s f w.
  - destruct w. cbn. now rewrite !Nat.add_0_r, !app_nil_r.
  - cbn [Push.upload_loop]. unfold bind at 1.
    rewrite upload_one_spec. cbv zeta.
    cbn [outcomes hub_after].
    destruct (hub_add_space_secret (hub w) token Push.repo_id key value)
      as [h' r].
    cbn [fst snd].
    destruct r as [msg|]; cbn [succeeded]; rewrite IH;
      cbn [env_file environ_HF_TOKEN stdin stdout hub hub_calls map filter
           succeeded];
      try change (failed (Some msg)) with true;
      try change (failed None) with false;
      unfold reports; cbn [combine map fst snd length];
      rewrite <- !app_assoc; cbn [app];
      (f_equal; f_equal; f_equal; lia).
Qed.

Lemma outcomes_length (h : H) (token : str) (todo : list (str * str)) :
  length (outcomes hub_add_space_secret h token todo) = length todo.
Proof.
  revert h. induction todo as [|[k v] rest IH]; intros h; simpl.
  - reflexivity.
  - destruct (hub_add_space_secret h token Push.repo_id k v). simpl.
    now rewrite IH.
Qed.

Lemma read_env_ok (w : world H) (lines : list str) :
  env_file w = Some lines ->
  read_env w = (Ok (build empty (entries lines)), w).
Proof.
  intros Hf. unfold read_env, bind, open_lines, lift. rewrite Hf.
  now rewrite read_lines_entries.
Qed.

(** The run when [HF_TOKEN] holds a non-empty token. *)
Lemma main_with_token (w : world H) (lines : list str) (tok : str) :
  env_file w = Some lines ->
  environ_HF_TOKEN w = Some tok ->
  truthy tok = true ->
  let todo := sorted item_cmp
                (items (filter_secrets Push.important_keys
                          (build empty (entries lines)))) in
  let outs := outcomes hub_add_space_secret (hub w) tok todo in
  let s := length (filter succeeded outs) in
  let f := length (filter failed outs) in
  exists pre post,
    Push.main hub_add_space_secret w
    = (Ok tt,
       World (env_file w) (environ_HF_TOKEN w) (stdin w)
             (stdout w ++ pre ++ reports todo outs
              ++ rule_line :: summary_line s f :: post)
             (hub_after hub_add_space_secret (hub w) tok todo)
             (hub_calls w ++ map (call_of tok) todo)).
Proof.
  intros Hf Ht Htr todo outs s f.
  unfold Push.main. unfold bind at 1. rewrite (read_env_ok _ Hf).
  unfold bind at 1. unfold print at 1, write at 1.
  unfold bind at 1. unfold environ_get_HF_TOKEN.
  cbn [environ_HF_TOKEN]. rewrite Ht, Htr.
  unfold bind at 1. unfold ret at 1.
  unfold bind at 1. rewrite Htr. cbn [negb]. unfold ret at 1.
  unfold bind at 1. unfold print at 1, write at 1.
  unfold bind at 1. unfold print at 1, write at 1.
  unfold bind at 1. rewrite upload_loop_spec.
  cbv zeta. cbn [env_file environ_HF_TOKEN stdin stdout hub hub_calls].
  fold todo. fold outs. fold s. fold f. cbn [Nat.add].
  unfold bind at 1. unfold print at 1, write at 1.
  unfold bind at 1. unfold print at 1, write at 1.
  cbn [env_file environ_HF_TOKEN stdin stdout hub hub_calls].
  destruct (0 <? s); eexists [_; _; _], _;
    unfold bind, print, write, ret;
    cbn [env_file environ_HF_TOKEN stdin stdout hub hub_calls];
    unfold summary_line, rule_line; rewrite <- !app_assoc; cbn [app];
    reflexivity.
Qed.

(** The run when [HF_TOKEN] is unset and the user types nothing but
    whitespace: the script stops at [sys.exit(1)] before the hub is
    touched. *)
Lemma main_without_token (w : world H) (lines rest : list str) (typed : str) :
  env_file w = Some lines ->
  environ_HF_TOKEN w = None ->
  stdin w = typed :: rest ->
  strip typed = [] ->
  exists out,
    Push.main hub_add_space_secret w
    = (Raise (SystemExit 1),
       World (env_file w) (environ_HF_TOKEN w) rest (stdout w ++ out)
             (hub w) (hub_calls w)).
Proof.
  intros Hf Ht Hin Hty.
  unfold Push.main. unfold bind at 1. rewrite (read_env_ok _ Hf).
  unfold bind at 1. unfold print at 1, write at 1.
  unfold bind at 1. unfold environ_get_HF_TOKEN.
  cbn [environ_HF_TOKEN]. rewrite Ht.
  unfold bind at 1. unfold Push.ask_token, input.
  unfold bind, print, write, ret, sys_exit, raise.
  cbn [env_file environ_HF_TOKEN stdin stdout hub hub_calls].
  rewrite Hin, Hty. cbn [truthy negb].
  cbn [env_file environ_HF_TOKEN stdin stdout hub hub_calls].
  eexists [_; _; _; _; _; _]. rewrite <- !app_assoc. cbn [app].
  reflexivity.
Qed.

(** The run when the file cannot be opened. *)
Lemma main_without_file (w : world H) :
  env_file w = None ->
  exists msg,
    Push.main hub_add_space_secret w = (Raise (Exception OSError msg), w).
Proof.
  intros Hf. unfold Push.main. unfold bind at 1.
  unfold read_env, bind, open_lines. rewrite Hf. eexists. reflexivity.
Qed.
End PushFacts.

(* ================================================================== *)
(** ** The remote-call script: the properties of the specification *)

Lemma insert_perm (A : Type) (cmp : A -> A -> comparison) (x : A) (l : list A) :
  Permutation (insert cmp x l) (x :: l).
Proof.
  induction l as [|y l IH]; simpl; [reflexivity|].
  destruct (cmp x y); try reflexivity.
  rewrite IH. apply perm_swap.
Qed.

(** [sorted] rearranges its argument and loses nothing. *)
Lemma sorted_perm (A : Type) (cmp : A -> A -> comparison) (l : list A) :
  Permutation (sorted cmp l) l.
Proof.
  induction l as [|x l IH]; simpl; [reflexivity|].
  rewrite insert_perm. now constructor.
Qed.

Lemma filter_split_length (A : Type) (p : A -> bool) (l : list A) :
  length (filter p l) + length (filter (fun x => negb (p x)) l) = length l.
Proof.
  induction l as [|x l IH]; simpl; [reflexivity|].
  destruct (p x); simpl; lia.
Qed.

(** C2 (as stated, refuted): for the line that sets GROQ_API_KEY_1 to the
    quoted value sk_live_abc123xyz789, the masked form is not
    sk_liv...9789, and a run in which the upload succeeds prints no such
    confirmation. *)
Lemma groq_key_is_not_masked_9789 :
  Push.masked (u "sk_live_abc123xyz789") <> u "sk_liv...9789"
  /\ in_list (success_line (u "GROQ_API_KEY_1") (u "sk_liv...9789"))
       (stdout (snd (Push.main Scenario.hub_ok
                       (Scenario.start [Scenario.groq_line]
                                       (Some (u "hf_token")) []))))
     = false.
Proof. split; [vm_compute; discriminate | vm_compute; reflexivity]. Qed.

(** C7: when HF_TOKEN is absent and the line typed at the prompt is empty
    once trimmed, the run ends with exit status 1 and the hub has received
    no call and is in the state it started in; with a readable file the
    run ends at [sys.exit(1)]. *)
Theorem no_token_exits_1_without_calls
        (H : Type) (add : H -> str -> str -> str -> str -> H * option str)
        (w : world H) (typed : str) (rest : list str) :
  environ_HF_TOKEN w = None ->
  stdin w = typed :: rest ->
  strip typed = [] ->
  exists r w',
    Push.main add w = (r, w')
    /\ exit_status r = 1
    /\ hub_calls w' = hub_calls w
    /\ hub w' = hub w
    /\ (env_file w <> None -> r = Raise (SystemExit 1)).
Proof.
  intros Ht Hin Hty. destruct (env_file w) as [lines|] eqn:Hf.
  - destruct (main_without_token add w Hf Ht Hin Hty) as (out & E).
    eexists _, _. split; [exact E|]. now repeat split.
  - destruct (main_without_file add w Hf) as (msg & E).
    eexists _, _. split; [exact E|]. repeat split. now intros [].
Qed.

Lemma no_token_exits_1_without_calls_witness :
  exists w',
    Push.main Scenario.hub_ok
      (Scenario.start Scenario.three_keys None [u "  "])
    = (Raise (SystemExit 1), w')
    /\ hub_calls w' = [].
Proof.
  destruct (@no_token_exits_1_without_calls unit Scenario.hub_ok
              (Scenario.start Scenario.three_keys None [u "  "])
              (u "  ") [] eq_refl eq_refl eq_refl)
    as (r & w' & Hmain & _ & Hcalls & _ & Hr).
  exists w'. split; [|exact Hcalls].
  rewrite Hmain. f_equal. apply Hr. discriminate.
Defined.

(* ================================================================== *)
(** ** More about the parser *)

Import Output.

Lemma str_in_char_notin (c : char) (s : str) : ~ In c s -> str_in [c] s = false.
Proof.
  intros Hc. destruct (str_in [c] s) eqn:E; [|reflexivity].
  destruct (str_in_char_split _ _ E) as (a & b & -> & _).
  exfalso. apply Hc. apply in_or_app. right. now left.
Qed.

(** What a line that yields a record looks like. *)
Lemma entry_of_inv (line key value : str) :
  entry_of line = Some (key, value) ->
  exists raw,
    strip line = key ++ u "=" ++ raw
    /\ ~ In 61%N key
    /\ value = unquote raw
    /\ is_real value = true
    /\ startswith (strip line) (u "#") = false.
Proof.
  unfold entry_of.
  destruct (truthy (strip line)); [|discriminate].
  destruct (startswith (strip line) (u "#")) eqn:Hc; [discriminate|].
  cbn [andb negb]. change (u "=") with [61%N].
  destruct (find_split [61%N] (strip line)) as [[k raw]|] eqn:E; [|discriminate].
  destruct (is_real (unquote raw)) eqn:Hr; [|discriminate].
  intros [= <- <-]. apply find_split_char_inv in E. destruct E as [E Hk].
  exists raw. now repeat split.
Qed.

Lemma strip_head (s : str) : head_sat isspace (strip s) = false.
Proof.
  destruct (strip_by_split isspace s) as (a & b & _ & _ & _ & Hh & _).
  exact Hh.
Qed.

Lemma strip_last (s : str) : head_sat isspace (rev (strip s)) = false.
Proof.
  destruct (strip_by_split isspace s) as (a & b & _ & _ & _ & _ & Hl).
  exact Hl.
Qed.

(** X1: a line that is blank once trimmed, or starts with [#] once
    trimmed, or holds no [=], changes nothing: the mapping after it is the
    mapping before it, and the file reads as if the line were not there. *)
Theorem ignored_line_changes_nothing (before after : list str) (line : str) :
  strip line = []
  \/ startswith (strip line) (u "#") = true
  \/ str_in (u "=") (strip line) = false ->
  (forall secrets, read_line secrets line = Ok secrets)
  /\ read_lines empty (before ++ line :: after)
     = read_lines empty (before ++ after).
Proof.
  intros Hline.
  assert (Hentry : entry_of line = None).
  { unfold entry_of. destruct Hline as [->|[->|Hno]]; try reflexivity.
    - now rewrite andb_false_r.
    - change (u "=") with [61%N] in *. rewrite find_split_absent by exact Hno.
      now destruct (truthy (strip line) && _). }
  split.
  - intros secrets. now rewrite read_line_entry, Hentry.
  - rewrite !read_lines_entries, !entries_app. cbn [entries].
    now rewrite Hentry.
Qed.

Lemma ignored_line_changes_nothing_witness :
  read_lines empty
    [u "JWT_SECRET=abc"; u "   # GROQ_API_KEY=gsk_1  "; u "GROQ_API_KEY"]
  = Ok [(u "JWT_SECRET", u "abc")].
Proof.
  destruct (@ignored_line_changes_nothing
              [u "JWT_SECRET=abc"] [u "GROQ_API_KEY"]
              (u "   # GROQ_API_KEY=gsk_1  ")
              (or_intror (or_introl eq_refl))) as [_ E1].
  destruct (@ignored_line_changes_nothing
              [u "JWT_SECRET=abc"] [] (u "GROQ_API_KEY")
              (or_intror (or_intror eq_refl))) as [_ E2].
  exact (eq_trans E1 (eq_trans E2 eq_refl)).
Defined.

(** X2: reading never fails, and every record of the parsed mapping has a
    value that is not empty and starts with neither [your] nor [sk_test],
    with no single quote at either end, under a key that holds no [=] and
    starts with neither whitespace nor [#]. *)
Theorem parsed_mapping_invariant (lines : list str) :
  exists secrets,
    read_lines empty lines = Ok secrets
    /\ forall key value,
         In (key, value) (items secrets) ->
         is_real value = true
         /\ str_in (u "=") key = false
         /\ head_sat isspace key = false
         /\ startswith key (u "#") = false
         /\ head_sat (N.eqb squote) value = false
         /\ head_sat (N.eqb squote) (rev value) = false.
Proof.
  exists (build empty (entries lines)). split; [apply read_lines_entries|].
  intros key value Hin. unfold items in Hin.
  apply build_In in Hin. destruct Hin as [[]|Hin].
  apply entries_In in Hin. destruct Hin as (line & _ & E).
  destruct (entry_of_inv _ E) as (raw & Hline & Hk & -> & Hr & Hc).
  pose proof (strip_head line) as Hh. rewrite Hline in Hh, Hc.
  destruct (unquote_split raw) as (a1 & a2 & b2 & b1 & _ & _ & _ & H1 & H2 & _).
  repeat split; try assumption.
  - now apply str_in_char_notin.
  - destruct key; [reflexivity | exact Hh].
  - destruct key; [reflexivity | exact Hc].
Qed.

(** X3: only the first [=] of a line separates key from value: when the
    trimmed line is [key], [=], [raw] with no [=] in [key] and is not a
    comment, everything after that [=], later [=] included, is the raw
    value. *)
Theorem first_equals_splits (secrets : dict) (line key raw : str) :
  strip line = key ++ u "=" ++ raw ->
  str_in (u "=") key = false ->
  startswith (strip line) (u "#") = false ->
  read_line secrets line
  = Ok (if is_real (unquote raw) then set secrets key (unquote raw)
        else secrets).
Proof.
  intros Hline Hk Hc. apply read_line_split; [|assumption].
  rewrite Hline. unfold split1. change (u "=") with [61%N] in *.
  cbn [app]. rewrite find_split_char; [reflexivity|].
  now apply str_in_char_In.
Qed.

Lemma first_equals_splits_witness :
  read_line empty (u "DATABASE_URL=postgres://u:p@host/db?sslmode=require")
  = Ok [(u "DATABASE_URL", u "postgres://u:p@host/db?sslmode=require")].
Proof.
  exact (@first_equals_splits empty
           (u "DATABASE_URL=postgres://u:p@host/db?sslmode=require")
           (u "DATABASE_URL") (u "postgres://u:p@host/db?sslmode=require")
           eq_refl eq_refl eq_refl).
Defined.

Lemma head_sat_app (p : char -> bool) (s t : str) :
  s <> [] -> head_sat p (s ++ t) = head_sat p s.
Proof. destruct s; [congruence | reflexivity]. Qed.

(** X4: the [KEY=VALUE] line that the manual-instructions variant prints
    for a record reads back as that record, provided the key holds no [=]
    and starts with neither whitespace nor [#], and the value passes the
    placeholder filter and has neither a quote at either end nor whitespace
    at its end. *)
Theorem printed_record_reads_back (secrets : dict) (key value : str) :
  str_in (u "=") key = false ->
  head_sat isspace key = false ->
  startswith key (u "#") = false ->
  is_real value = true ->
  head_sat is_quote value = false ->
  head_sat is_quote (rev value) = false ->
  head_sat isspace (rev value) = false ->
  read_line secrets (plain_line key value) = Ok (set secrets key value).
Proof.
  intros Hk Hks Hkc Hr Hq1 Hq2 Hsp.
  assert (Hv : value <> []).
  { intros ->. discriminate. }
  assert (Hstrip : strip (plain_line key value) = key ++ u "=" ++ value).
  { unfold plain_line, strip, strip_by.
    rewrite lstrip_by_id by (destruct key; [reflexivity | exact Hks]).
    rewrite !app_assoc. rewrite rstrip_by_snoc by reflexivity.
    apply rstrip_by_id. rewrite rev_app_distr.
    rewrite head_sat_app; [assumption|].
    intros E. apply Hv. apply (f_equal (@rev char)) in E.
    now rewrite rev_involutive in E. }
  rewrite (@first_equals_splits secrets _ key value Hstrip Hk).
  - now rewrite unquote_id, Hr.
  - rewrite Hstrip. destruct key; [reflexivity | exact Hkc].
Qed.

Lemma printed_record_reads_back_witness :
  read_line empty (plain_line (u "GROQ_API_KEY_1") (u "gsk_abc=="))
  = Ok [(u "GROQ_API_KEY_1", u "gsk_abc==")].
Proof.
  exact (@printed_record_reads_back empty (u "GROQ_API_KEY_1") (u "gsk_abc==")
           eq_refl eq_refl eq_refl eq_refl eq_refl eq_refl eq_refl).
Defined.

(* ================================================================== *)
(** ** More about the allow-list and the order of the records *)

Lemma NoDup_keys_filter (p : str * str -> bool) (d : dict) :
  NoDup (keys d) -> NoDup (keys (filter p d)).
Proof.
  unfold keys. induction d as [|kv d IH]; simpl; intros Hd; [constructor|].
  inversion Hd as [|? ? Hnin Hd']; subst.
  destruct (p kv); simpl; [|now apply IH].
  constructor; [|now apply IH].
  intros Hin. apply Hnin. apply in_map_iff in Hin.
  destruct Hin as (x & Ex & Hx). apply filter_In in Hx.
  apply in_map_iff. exists x. tauto.
Qed.

Lemma filter_length_bound (A : Type) (p : A -> bool) (l : list A) :
  length (filter p l) <= length l.
Proof.
  induction l as [|x l IH]; simpl; [lia|]. destruct (p x); simpl; lia.
Qed.

(** X5: the allow-list loop keeps records and never makes or changes one:
    the retained mapping has pairwise distinct keys, every record in it is
    a record of the parsed mapping, it is no larger, and running the loop
    on it again gives it back. *)
Theorem filter_secrets_idempotent (lines : list str) :
  exists secrets,
    read_lines empty lines = Ok secrets
    /\ forall important_keys,
         filter_secrets important_keys (filter_secrets important_keys secrets)
         = filter_secrets important_keys secrets
         /\ NoDup (keys (filter_secrets important_keys secrets))
         /\ (forall key value,
                get (filter_secrets important_keys secrets) key = Some value ->
                get secrets key = Some value)
         /\ len (filter_secrets important_keys secrets) <= len secrets.
Proof.
  exists (build empty (entries lines)). split; [apply read_lines_entries|].
  intros ik. pose proof (read_NoDup lines) as Hnd.
  rewrite (@filter_secrets_filter ik _ Hnd).
  split; [|split; [|split]].
  - rewrite filter_secrets_filter by now apply NoDup_keys_filter.
    rewrite filter_filter_andb. apply filter_ext.
    intros kv. apply andb_diag.
  - now apply NoDup_keys_filter.
  - intros key value. rewrite get_filter.
    now destruct (allowed ik key).
  - apply filter_length_bound.
Qed.

(** *** The order of [str] *)

Lemma str_cmp_antisym (a b : str) : str_cmp b a = CompOpp (str_cmp a b).
Proof.
  revert b. induction a as [|x a IH]; intros [|y b]; simpl; try reflexivity.
  rewrite (N.compare_antisym x y).
  destruct (x ?= y)%N; simpl; [apply IH | reflexivity | reflexivity].
Qed.

Lemma str_cmp_eq (a b : str) : str_cmp a b = Eq -> a = b.
Proof.
  revert b. induction a as [|x a IH]; intros [|y b]; simpl;
    try discriminate; [reflexivity|].
  destruct (x ?= y)%N eqn:E; try discriminate.
  apply N.compare_eq in E. subst y. intros Hab. f_equal. now apply IH.
Qed.

Lemma str_cmp_refl (a : str) : str_cmp a a = Eq.
Proof.
  induction a as [|x a IH]; simpl; [reflexivity|].
  now rewrite N.compare_refl.
Qed.

Lemma item_cmp_antisym (a b : str * str) : item_cmp b a = CompOpp (item_cmp a b).
Proof.
  unfold item_cmp. rewrite (str_cmp_antisym (fst a) (fst b)).
  destruct (str_cmp (fst a) (fst b)); simpl; try reflexivity.
  apply str_cmp_antisym.
Qed.

(** On records with different keys the order of the tuples is the order
    of the keys. *)
Lemma item_cmp_keys (a b : str * str) :
  fst a <> fst b -> item_cmp a b = str_cmp (fst a) (fst b).
Proof.
  intros Hab. unfold item_cmp.
  destruct (str_cmp (fst a) (fst b)) eqn:E; try reflexivity.
  now apply str_cmp_eq in E.
Qed.

(** *** [sorted] sorts *)

Section SortedFacts.
Variable A : Type.
Variable cmp : A -> A -> comparison.
Hypothesis cmp_antisym : forall a b, cmp b a = CompOpp (cmp a b).

Lemma insert_HdRel (a x : A) (l : list A) :
  cmp a x <> Gt -> HdRel (fun a b => cmp a b <> Gt) a l ->
  HdRel (fun a b => cmp a b <> Gt) a (insert cmp x l).
Proof.
  intros Hax Hal. destruct l as [|y l]; simpl.
  - now constructor.
  - destruct (cmp x y); constructor; try assumption.
    now inversion Hal.
Qed.

Lemma insert_Sorted (x : A) (l : list A) :
  Sorted (fun a b => cmp a b <> Gt) l ->
  Sorted (fun a b => cmp a b <> Gt) (insert cmp x l).
Proof.
  induction 1 as [|y l Hl IH Hy]; simpl.
  - repeat constructor.
  - destruct (cmp x y) eqn:E.
    + repeat constructor; try assumption. congruence.
    + repeat constructor; try assumption. congruence.
    + constructor; [assumption|]. apply insert_HdRel; [|assumption].
      rewrite cmp_antisym, E. discriminate.
Qed.

Lemma sorted_Sorted (l : list A) :
  Sorted (fun a b => cmp a b <> Gt) (sorted cmp l).
Proof.
  induction l as [|x l IH]; simpl; [constructor|]. now apply insert_Sorted.
Qed.
End SortedFacts.

Lemma Sorted_strict_keys (l : list (str * str)) :
  NoDup (keys l) ->
  Sorted (fun a b => item_cmp a b <> Gt) l -> keys_ascending l.
Proof.
  unfold keys_ascending, keys. intros Hnd Hs.
  induction Hs as [|a l Hl IH Ha]; [constructor|].
  simpl in Hnd. inversion Hnd as [|? ? Hnin Hnd']; subst.
  constructor; [now apply IH|].
  destruct Ha as [|b l Hab]; constructor.
  assert (Hk : fst a <> fst b) by (intros E; apply Hnin; now left).
  rewrite (item_cmp_keys _ _ Hk) in Hab.
  destruct (str_cmp (fst a) (fst b)) eqn:E; try congruence.
  now apply str_cmp_eq in E.
Qed.

Lemma sorted_items_ascending (d : dict) :
  NoDup (keys d) -> keys_ascending (sorted item_cmp (items d)).
Proof.
  intros Hnd. apply Sorted_strict_keys.
  - unfold keys. apply (Permutation_NoDup (l := map fst d)); [|exact Hnd].
    apply Permutation_map. symmetry. apply sorted_perm.
  - apply sorted_Sorted. apply item_cmp_antisym.
Qed.



(** X6: the records retained from any file, put in the order in which the
    remote-call variant uploads them, are in strictly ascending order of
    their keys, and they are the retained records, each once. *)
Theorem upload_order_is_ascending (lines : list str) :
  exists secrets,
    read_lines empty lines = Ok secrets
    /\ let todo := sorted item_cmp
                     (items (filter_secrets Push.important_keys secrets)) in
       keys_ascending todo
       /\ NoDup (keys todo)
       /\ Permutation todo (items (filter_secrets Push.important_keys secrets)).
Proof.
  exists (build empty (entries lines)). split; [apply read_lines_entries|].
  cbv zeta. pose proof (read_NoDup lines) as Hnd.
  assert (Hf : NoDup (keys (filter_secrets Push.important_keys
                              (build empty (entries lines))))).
  { rewrite filter_secrets_filter by assumption. now apply NoDup_keys_filter. }
  split; [now apply sorted_items_ascending|]. split; [|apply sorted_perm].
  unfold keys in *. refine (Permutation_NoDup _ Hf).
  apply Permutation_map. symmetry. apply sorted_perm.
Qed.


(* ================================================================== *)
(** ** More about the remote-call script *)

Section PushRuns.
Variable H : Type.
Variable add : H -> str -> str -> str -> str -> H * option str.


(** The run when [HF_TOKEN] is unset or empty and a token is typed. *)
Lemma main_with_prompt_chunks
      (w : world H) (lines rest : list str) (typed : str) :
  env_file w = Some lines ->
  truthy_opt (environ_HF_TOKEN w) = false ->
  stdin w = typed :: rest ->
  truthy (strip typed) = true ->
  let retained := filter_secrets Push.important_keys
                    (build empty (entries lines)) in
  let todo := sorted item_cmp (items retained) in
  let outs := outcomes add (hub w) (strip typed) todo in
  let s := length (filter succeeded outs) in
  let f := length (filter failed outs) in
  exists pre post,
    Push.main add w
    = (Ok tt,
       World (env_file w) (environ_HF_TOKEN w) rest
             (stdout w ++ found_line (len retained) :: pre
              ++ reports todo outs
              ++ rule_line :: summary_line s f :: post)
             (hub_after add (hub w) (strip typed) todo)
             (hub_calls w ++ map (call_of (strip typed)) todo))
    /\ length pre = 6
    /\ length post = if 0 <? s then 3 else 0.
Proof.
  intros Hf Hno Hin Htr retained todo outs s f.
  unfold Push.main. unfold bind at 1. rewrite (read_env_ok _ Hf).
  unfold bind at 1. unfold print at 1, write at 1.
  unfold bind at 1. unfold environ_get_HF_TOKEN.
  cbn [environ_HF_TOKEN].
  destruct (environ_HF_TOKEN w) as [t|]; [simpl in Hno; rewrite Hno|].
  all: unfold bind at 1; unfold Push.ask_token, input.
  all: unfold bind, print, write, ret.
  all: cbn [env_file environ_HF_TOKEN stdin stdout hub hub_calls].
  all: rewrite Hin, Htr; cbn [negb].
  all: rewrite upload_loop_spec; cbv zeta.
  all: cbn [env_file environ_HF_TOKEN stdin stdout hub hub_calls].
  all: fold retained; fold todo; fold outs; fold s; fold f; cbn [Nat.add].
  all: destruct (0 <? s); eexists [_; _; _; _; _; _], _;
    cbn [env_file environ_HF_TOKEN stdin stdout hub hub_calls];
    unfold summary_line, rule_line, found_line; rewrite <- !app_assoc;
    cbn [app]; (split; [reflexivity|]); split; reflexivity.
Qed.

End PushRuns.

(* ================================================================== *)
(** ** Uploads, whichever way the token came *)

(** A run that has a token, from [HF_TOKEN] or from the prompt, goes
    through the whole upload loop and ends normally. *)
Lemma main_with_resolved_token
      (H : Type) (add : H -> str -> str -> str -> str -> H * option str)
      (w : world H) (lines rest : list str) (tok : str) :
  env_file w = Some lines ->
  resolved_token w = Some (tok, rest) ->
  let todo := sorted item_cmp
                (items (filter_secrets Push.important_keys
                          (build empty (entries lines)))) in
  let outs := outcomes add (hub w) tok todo in
  let s := length (filter succeeded outs) in
  let f := length (filter failed outs) in
  exists pre post,
    Push.main add w
    = (Ok tt,
       World (env_file w) (environ_HF_TOKEN w) rest
             (stdout w ++ pre ++ reports todo outs
              ++ rule_line :: summary_line s f :: post)
             (hub_after add (hub w) tok todo)
             (hub_calls w ++ map (call_of tok) todo)).
Proof.
  intros Hf Hres.
  assert (Hcases :
            (environ_HF_TOKEN w = Some tok /\ truthy tok = true
             /\ rest = stdin w)
            \/ (truthy_opt (environ_HF_TOKEN w) = false
                /\ exists typed, stdin w = typed :: rest
                                 /\ tok = strip typed
                                 /\ truthy (strip typed) = true)).
  { unfold resolved_token in Hres.
    assert (Htyped : typed_token (stdin w) = Some (tok, rest) ->
                     exists typed, stdin w = typed :: rest
                                   /\ tok = strip typed
                                   /\ truthy (strip typed) = true).
    { unfold typed_token. destruct (stdin w) as [|typed r]; [discriminate|].
      destruct (truthy (strip typed)) eqn:E; [|discriminate].
      intros [= <- <-]. now exists typed. }
    destruct (environ_HF_TOKEN w) as [t|].
    - destruct (truthy t) eqn:Et.
      + left. injection Hres as -> <-. now repeat split.
      + right. split; [exact Et | now apply Htyped].
    - right. split; [reflexivity | now apply Htyped]. }
  destruct Hcases as [(Ht & Htr & ->) | (Hno & typed & Hin & -> & Htr)].
  - exact (main_with_token add w Hf Ht Htr).
  - destruct (main_with_prompt_chunks add w Hf Hno Hin Htr)
      as (pre & post & E & _).
    cbv zeta in *. eexists (_ :: pre), post. exact E.
Qed.

(** C2 (amended): the line that sets GROQ_API_KEY_1 to the quoted value
    sk_live_abc123xyz789 passes the placeholder filter and the allow-list
    filter, and when its upload succeeds, with the token taken from
    HF_TOKEN or typed at the prompt, the value is shown masked as
    sk_liv...z789: the first six characters and the last four. *)
Theorem groq_key_retained_and_masked
        (H : Type) (add : H -> str -> str -> str -> str -> H * option str)
        (w : world H) (tok : str) (rest : list str) (h' : H) :
  env_file w = Some [Scenario.groq_line] ->
  resolved_token w = Some (tok, rest) ->
  add (hub w) tok Push.repo_id (u "GROQ_API_KEY_1") (u "sk_live_abc123xyz789")
  = (h', None) ->
  read_lines empty [Scenario.groq_line]
  = Ok [(u "GROQ_API_KEY_1", u "sk_live_abc123xyz789")]
  /\ filter_secrets Push.important_keys
       [(u "GROQ_API_KEY_1", u "sk_live_abc123xyz789")]
     = [(u "GROQ_API_KEY_1", u "sk_live_abc123xyz789")]
  /\ exists w',
       Push.main add w = (Ok tt, w')
       /\ hub_calls w'
          = hub_calls w
            ++ [(tok, Push.repo_id,
                 u "GROQ_API_KEY_1", u "sk_live_abc123xyz789")]
       /\ In (success_line (u "GROQ_API_KEY_1") (u "sk_liv...z789"))
             (stdout w').
Proof.
  intros Hf Hres Hadd. split; [reflexivity|]. split; [reflexivity|].
  destruct (main_with_resolved_token add w Hf Hres) as (pre & post & E).
  cbv zeta in E.
  change (sorted item_cmp
            (items (filter_secrets Push.important_keys
                      (build empty (entries [Scenario.groq_line])))))
    with [(u "GROQ_API_KEY_1", u "sk_live_abc123xyz789")] in E.
  cbn [outcomes] in E. rewrite Hadd in E.
  eexists. split; [exact E|]. split; [reflexivity|].
  cbn [stdout]. apply in_or_app. right. apply in_or_app. right.
  apply in_or_app. left. now left.
Qed.

Lemma groq_key_retained_and_masked_witness :
  (exists w',
      Push.main Scenario.hub_ok
        (Scenario.start [Scenario.groq_line] (Some (u "hf_token")) [])
      = (Ok tt, w')
      /\ length (hub_calls w') = 1
      /\ In (success_line (u "GROQ_API_KEY_1") (u "sk_liv...z789"))
            (stdout w'))
  /\ (exists w',
         Push.main Scenario.hub_ok
           (Scenario.start [Scenario.groq_line] None [u " hf_typed "])
         = (Ok tt, w')
         /\ hub_calls w'
            = [(u "hf_typed", Push.repo_id,
                u "GROQ_API_KEY_1", u "sk_live_abc123xyz789")]
         /\ In (success_line (u "GROQ_API_KEY_1") (u "sk_liv...z789"))
               (stdout w')).
Proof.
  split.
  - destruct (@groq_key_retained_and_masked unit Scenario.hub_ok
                (Scenario.start [Scenario.groq_line] (Some (u "hf_token")) [])
                (u "hf_token") [] tt eq_refl eq_refl eq_refl)
      as (_ & _ & w' & Hmain & Hcalls & Hshown).
    exists w'. split; [exact Hmain|]. split; [|exact Hshown].
    rewrite Hcalls. reflexivity.
  - destruct (@groq_key_retained_and_masked unit Scenario.hub_ok
                (Scenario.start [Scenario.groq_line] None [u " hf_typed "])
                (u "hf_typed") [] tt eq_refl eq_refl eq_refl)
      as (_ & _ & w' & Hmain & Hcalls & Hshown).
    exists w'. split; [exact Hmain|]. split; [exact Hcalls | exact Hshown].
Defined.

(** C8: in every run that has a token, taken from HF_TOKEN or typed at the
    prompt, the script sends every retained record to the hub, in key
    order, whatever the hub answered to the earlier ones; each call that
    raises adds one to the failure count and prints the key with the first
    50 characters of the error, every other call adds one to the success
    count and prints the masked value; the summary line reports the two
    counts, and the run ends normally. *)
Theorem failed_upload_is_counted_and_skipped
        (H : Type) (add : H -> str -> str -> str -> str -> H * option str)
        (w : world H) (lines rest : list str) (tok : str) :
  env_file w = Some lines ->
  resolved_token w = Some (tok, rest) ->
  exists secrets w',
    read_lines empty lines = Ok secrets
    /\ Push.main add w = (Ok tt, w')
    /\ let todo := sorted item_cmp
                     (items (filter_secrets Push.important_keys secrets)) in
       let outs := outcomes add (hub w) tok todo in
       let success_count := length (filter succeeded outs) in
       let fail_count := length (filter failed outs) in
       Permutation todo (items (filter_secrets Push.important_keys secrets))
       /\ hub_calls w' = hub_calls w ++ map (call_of tok) todo
       /\ success_count + fail_count = length todo
       /\ In (summary_line success_count fail_count) (stdout w')
       /\ (forall key value msg,
              In ((key, value), Some msg) (combine todo outs) ->
              In (failure_line key msg) (stdout w'))
       /\ (forall key value,
              In ((key, value), None) (combine todo outs) ->
              In (success_line key (Push.masked value)) (stdout w')).
Proof.
  intros Hf Hres.
  destruct (main_with_resolved_token add w Hf Hres) as (pre & post & E).
  cbv zeta in E.
  exists (build empty (entries lines)). eexists.
  split; [apply read_lines_entries|]. split; [exact E|].
  cbv zeta. cbn [hub_calls stdout].
  split; [apply sorted_perm|]. split; [reflexivity|].
  split; [|split; [|split]].
  - unfold failed. rewrite filter_split_length. apply outcomes_length.
  - apply in_or_app. right. apply in_or_app. right.
    apply in_or_app. right. right. now left.
  - intros key value msg Hin.
    apply in_or_app. right. apply in_or_app. right.
    apply in_or_app. left. unfold reports.
    change (failure_line key msg)
      with ((fun p : str * str * option str => report (fst p) (snd p))
              ((key, value), Some msg)).
    now apply in_map.
  - intros key value Hin.
    apply in_or_app. right. apply in_or_app. right.
    apply in_or_app. left. unfold reports.
    change (success_line key (Push.masked value))
      with ((fun p : str * str * option str => report (fst p) (snd p))
              ((key, value), None)).
    now apply in_map.
Qed.

Lemma failed_upload_is_counted_and_skipped_witness :
  exists w',
    Push.main (Scenario.hub_rejecting (u "GEMINI_API_KEY"))
      (Scenario.start Scenario.three_keys None [u " hf_typed "])
    = (Ok tt, w')
    /\ hub_calls w'
       = [(u "hf_typed", Push.repo_id, u "GEMINI_API_KEY", u "AIzaSyExample");
          (u "hf_typed", Push.repo_id,
           u "GROQ_API_KEY_1", u "gsk_first_key_0001");
          (u "hf_typed", Push.repo_id,
           u "JWT_SECRET", u "a-long-jwt-signing-secret")]
    /\ In ([newline] ++ u "Done! Uploaded 2 secrets, 1 failed." ++ [newline])
          (stdout w')
    /\ In (failure_line (u "GEMINI_API_KEY") (u "403 Forbidden")) (stdout w')
    /\ In (success_line (u "GROQ_API_KEY_1") (u "gsk_fi...0001")) (stdout w')
    /\ In (success_line (u "JWT_SECRET") (u "a-long...cret")) (stdout w').
Proof.
  destruct (@failed_upload_is_counted_and_skipped unit
              (Scenario.hub_rejecting (u "GEMINI_API_KEY"))
              (Scenario.start Scenario.three_keys None [u " hf_typed "])
              Scenario.three_keys [] (u "hf_typed") eq_refl eq_refl)
    as (secrets & w' & Hread & Hmain & _ & Hcalls & _ & Hsum & Hfail & Hok).
  assert (Hs : secrets
               = [(u "GROQ_API_KEY_1", u "gsk_first_key_0001");
                  (u "JWT_SECRET", u "a-long-jwt-signing-secret");
                  (u "GEMINI_API_KEY", u "AIzaSyExample")]).
  { vm_compute in Hread. now inversion Hread. }
  subst secrets.
  exists w'. split; [exact Hmain|]. split; [exact Hcalls|].
  split; [exact Hsum|]. split; [|split].
  - apply (Hfail _ (u "AIzaSyExample")). vm_compute. left. reflexivity.
  - apply (Hok (u "GROQ_API_KEY_1") (u "gsk_first_key_0001")).
    vm_compute. right. left. reflexivity.
  - apply (Hok (u "JWT_SECRET") (u "a-long-jwt-signing-secret")).
    vm_compute. right. right. left. reflexivity.
Defined.





(** X10: when HF_TOKEN is unset, or set to the empty string, the script
    prompts once, takes one line from standard input, trims it, and uses
    the result as the token of every call. *)
Theorem typed_token_is_trimmed_and_used
        (H : Type) (add : H -> str -> str -> str -> str -> H * option str)
        (w : world H) (lines rest : list str) (typed : str) :
  env_file w = Some lines ->
  environ_HF_TOKEN w = None \/ environ_HF_TOKEN w = Some [] ->
  stdin w = typed :: rest ->
  strip typed <> [] ->
  exists secrets w' todo,
    read_lines empty lines = Ok secrets
    /\ Push.main add w = (Ok tt, w')
    /\ stdin w' = rest
    /\ Permutation todo (items (filter_secrets Push.important_keys secrets))
    /\ hub_calls w' = hub_calls w ++ map (call_of (strip typed)) todo.
Proof.
  intros Hf Ht Hin Hty.
  assert (Hno : truthy_opt (environ_HF_TOKEN w) = false)
    by (destruct Ht as [-> | ->]; reflexivity).
  assert (Htr : truthy (strip typed) = true)
    by (destruct (strip typed); [congruence | reflexivity]).
  destruct (main_with_prompt_chunks add w Hf Hno Hin Htr)
    as (pre & post & E & _).
  cbv zeta in E.
  exists (build empty (entries lines)). eexists _, _.
  split; [apply read_lines_entries|]. split; [exact E|].
  cbn [stdin hub_calls]. split; [reflexivity|].
  split; [apply sorted_perm | reflexivity].
Qed.

Lemma typed_token_is_trimmed_and_used_witness :
  exists w',
    Push.main Scenario.hub_ok
      (Scenario.start [u "JWT_SECRET=abc"] (Some []) [u "  hf_typed "; u "x"])
    = (Ok tt, w')
    /\ stdin w' = [u "x"]
    /\ hub_calls w' = [(u "hf_typed", Push.repo_id, u "JWT_SECRET", u "abc")].
Proof.
  destruct (@typed_token_is_trimmed_and_used unit Scenario.hub_ok
              (Scenario.start [u "JWT_SECRET=abc"] (Some [])
                              [u "  hf_typed "; u "x"])
              [u "JWT_SECRET=abc"] [u "x"] (u "  hf_typed ")
              eq_refl (or_intror eq_refl) eq_refl)
    as (secrets & w' & todo & Hread & Hmain & Hin & Hperm & Hcalls).
  - vm_compute. discriminate.
  - assert (Hs : secrets = [(u "JWT_SECRET", u "abc")]).
    { vm_compute in Hread. now inversion Hread. }
    subst secrets.
    assert (Htodo : todo = [(u "JWT_SECRET", u "abc")]).
    { apply Permutation_sym in Hperm.
      exact (Permutation_length_1_inv Hperm). }
    subst todo.
    exists w'. split; [exact Hmain|]. split; [exact Hin|]. exact Hcalls.
Defined.



(* ================================================================== *)
(** ** The manual-instructions script *)

Section UploadRuns.
Variable H : Type.

(** A loop that prints one line per key of the mapping never meets a
    missing key. *)
Lemma for_each_getitem_print
      (d : dict) (line : str -> str -> str) (ks : list str) :
  (forall k, In k ks -> In k (keys d)) ->
  forall w : world H,
    for_each ks (fun key =>
                   Py.bind (@Upload.getitem H d key)
                           (fun val => print (line key val))) w
    = (Ok tt,
       World (env_file w) (environ_HF_TOKEN w) (stdin w)
             (stdout w ++ map (fun k => line k (value_at d k) ++ [newline]) ks)
             (hub w) (hub_calls w)).
Proof.
  induction ks as [|k ks IH]; intros Hks w.
  - destruct w. cbn. now rewrite app_nil_r.
  - cbn [for_each]. unfold bind at 1. unfold bind at 1.
    unfold Upload.getitem, value_at.
    destruct (get d k) as [v|] eqn:E.
    + unfold ret at 1. unfold print at 1, write at 1.
      rewrite IH by (intros k' Hk'; apply Hks; now right).
      cbn [env_file environ_HF_TOKEN stdin stdout hub hub_calls map].
      rewrite E, <- app_assoc. reflexivity.
    + apply get_None in E. exfalso. apply E, Hks. now left.
Qed.

(** The run of the manual-instructions script on a readable file. *)
Lemma upload_main_chunks (w : world H) (lines : list str) :
  env_file w = Some lines ->
  let retained := filter_secrets Upload.important_keys
                    (build empty (entries lines)) in
  let ks := sorted str_cmp (keys retained) in
  exists header,
    @Upload.main H w
    = (Ok tt,
       World (env_file w) (environ_HF_TOKEN w) (stdin w)
             (stdout w
              ++ found_line_manual (len retained)
              :: map (fun k => preview_line k (value_at retained k)) ks
              ++ header
              ++ map (fun k => plain_line k (value_at retained k)) ks)
             (hub w) (hub_calls w))
    /\ length header = 5.
Proof.
  intros Hf retained ks.
  assert (Hks : forall k, In k ks -> In k (keys retained)).
  { intros k. apply Permutation_in. apply sorted_perm. }
  assert (Hpre : forall k,
             (u "  - " ++ k ++ u ": " ++ Upload.masked (value_at retained k))
             ++ [newline]
             = preview_line k (value_at retained k)).
  { intros k. unfold preview_line. now rewrite <- !app_assoc. }
  assert (Hplain : forall k,
             (k ++ u "=" ++ value_at retained k) ++ [newline]
             = plain_line k (value_at retained k)).
  { intros k. unfold plain_line. now rewrite <- !app_assoc. }
  pose proof (@for_each_getitem_print retained
                (fun key val => u "  - " ++ key ++ u ": " ++ Upload.masked val)
                ks Hks) as E1.
  pose proof (@for_each_getitem_print retained
                (fun key val => key ++ u "=" ++ val) ks Hks) as E2.
  cbv beta in E1, E2.
  unfold Upload.main. unfold bind at 1. rewrite (read_env_ok _ Hf).
  fold retained. fold ks.
  unfold bind at 1. unfold print at 1, write at 1.
  cbn [env_file environ_HF_TOKEN stdin stdout hub hub_calls].
  unfold bind at 1. rewrite E1.
  cbn [env_file environ_HF_TOKEN stdin stdout hub hub_calls].
  do 5 (unfold bind at 1; unfold print at 1, write at 1;
        cbn [env_file environ_HF_TOKEN stdin stdout hub hub_calls]).
  rewrite E2.
  cbn [env_file environ_HF_TOKEN stdin stdout hub hub_calls].
  rewrite (map_ext _ _ Hpre), (map_ext _ _ Hplain).
  eexists [_; _; _; _; _]. split; [|reflexivity].
  unfold found_line_manual. rewrite <- !app_assoc. cbn [app].
  reflexivity.
Qed.

(** Neither script prints or calls anything when the file cannot be
    opened. *)
Lemma upload_main_without_file (w : world H) :
  env_file w = None ->
  exists msg, @Upload.main H w = (Raise (Exception OSError msg), w).
Proof.
  intros Hf. unfold Upload.main. unfold bind at 1.
  unfold read_env, bind, open_lines. rewrite Hf. eexists. reflexivity.
Qed.
End UploadRuns.

(** The manual-instructions script shows every record it retains, masked
    and in full. *)
Lemma upload_main_shows (H : Type) (w : world H) (lines : list str) :
  env_file w = Some lines ->
  let retained := filter_secrets Upload.important_keys
                    (build empty (entries lines)) in
  exists w',
    @Upload.main H w = (Ok tt, w')
    /\ stdin w' = stdin w
    /\ hub_calls w' = hub_calls w
    /\ hub w' = hub w
    /\ length (stdout w') = length (stdout w) + 2 * len retained + 6
    /\ forall key value,
         get retained key = Some value ->
         In (preview_line key value) (stdout w')
         /\ In (plain_line key value) (stdout w').
Proof.
  intros Hf retained. destruct (upload_main_chunks w Hf) as (header & E & Hh).
  cbv zeta in E. fold retained in E.
  eexists. split; [exact E|].
  cbn [stdin hub_calls hub stdout]. do 3 (split; [reflexivity|]).
  split.
  - rewrite length_app. cbn [length]. rewrite !length_app, !length_map, Hh.
    unfold len, keys.
    rewrite (Permutation_length (sorted_perm str_cmp (map fst retained))).
    rewrite length_map. lia.
  - intros key value Hget.
    assert (Hin : In key (sorted str_cmp (keys retained))).
    { apply (Permutation_in (l := keys retained)).
      - symmetry. apply sorted_perm.
      - destruct (get_None retained key) as [_ Hn].
        destruct (in_dec (list_eq_dec N.eq_dec) key (keys retained)) as [?|Hk];
          [assumption|].
        rewrite (Hn Hk) in Hget. discriminate. }
    assert (Hv : value_at retained key = value)
      by (unfold value_at; now rewrite Hget).
    split; apply in_or_app; right; right.
    + apply in_or_app. left. rewrite <- Hv.
      exact (in_map (fun k => preview_line k (value_at retained k)) _ _ Hin).
    + apply in_or_app. right. apply in_or_app. right. rewrite <- Hv.
      exact (in_map (fun k => plain_line k (value_at retained k)) _ _ Hin).
Qed.

(** X12: on a readable file the manual-instructions script ends normally
    without reading standard input or calling the hub; it prints six
    chunks and two per retained record, and for every retained record both
    the masked preview and the full [KEY=VALUE] line, value unmasked. *)
Theorem manual_run_prints_every_record
        (H : Type) (w : world H) (lines : list str) :
  env_file w = Some lines ->
  exists secrets w',
    read_lines empty lines = Ok secrets
    /\ @Upload.main H w = (Ok tt, w')
    /\ stdin w' = stdin w
    /\ hub_calls w' = hub_calls w
    /\ hub w' = hub w
    /\ let retained := filter_secrets Upload.important_keys secrets in
       length (stdout w') = length (stdout w) + 2 * len retained + 6
       /\ forall key value,
            get retained key = Some value ->
            In (preview_line key value) (stdout w')
            /\ In (plain_line key value) (stdout w').
Proof.
  intros Hf. destruct (upload_main_shows w Hf) as (w' & E & H1 & H2 & H3 & H4).
  exists (build empty (entries lines)), w'.
  split; [apply read_lines_entries|]. split; [exact E|].
  split; [exact H1|]. split; [exact H2|]. split; [exact H3|]. exact H4.
Qed.

Lemma manual_run_prints_every_record_witness :
  exists w',
    @Upload.main unit
      (Scenario.start [u "NODE_ENV=production"; u "RANDOM_VAR=hello"] None [])
    = (Ok tt, w')
    /\ length (stdout w') = 8
    /\ In (u "NODE_ENV=production" ++ [newline]) (stdout w').
Proof.
  destruct (@manual_run_prints_every_record unit
              (Scenario.start [u "NODE_ENV=production"; u "RANDOM_VAR=hello"]
                              None [])
              [u "NODE_ENV=production"; u "RANDOM_VAR=hello"] eq_refl)
    as (secrets & w' & Hread & Hmain & _ & _ & _ & Hlen & Hshow).
  assert (Hs : secrets = [(u "NODE_ENV", u "production");
                          (u "RANDOM_VAR", u "hello")]).
  { vm_compute in Hread. now inversion Hread. }
  subst secrets.
  exists w'. split; [exact Hmain|]. split; [exact Hlen|].
  exact (proj2 (Hshow (u "NODE_ENV") (u "production") eq_refl)).
Defined.



Lemma retained_push_in_upload (lines : list str) (key value : str) :
  get (filter_secrets Push.important_keys (build empty (entries lines))) key
  = Some value ->
  get (filter_secrets Upload.important_keys (build empty (entries lines))) key
  = Some value.
Proof.
  rewrite !filter_secrets_filter by apply read_NoDup.
  rewrite !get_filter, allowed_push_upload.
  destruct (allowed Upload.important_keys key); [|discriminate].
  now destruct (negb (in_list key manual_only_keys)).
Qed.

(** X16: on the same file, every key and value that the remote-call
    script sends to the hub is also listed in full, as [KEY=VALUE], by the
    manual-instructions script. *)
Theorem manual_list_covers_uploads
        (H : Type) (add : H -> str -> str -> str -> str -> H * option str)
        (w : world H) (lines : list str) (tok : str) :
  env_file w = Some lines ->
  environ_HF_TOKEN w = Some tok ->
  truthy tok = true ->
  exists w_push w_manual calls,
    Push.main add w = (Ok tt, w_push)
    /\ hub_calls w_push = hub_calls w ++ calls
    /\ @Upload.main H w = (Ok tt, w_manual)
    /\ forall token repo key value,
         In (token, repo, key, value) calls ->
         In (plain_line key value) (stdout w_manual).
Proof.
  intros Hf Ht Htr.
  destruct (main_with_token add w Hf Ht Htr) as (pre & post & E).
  destruct (upload_main_shows w Hf) as (wm & Em & _ & _ & _ & _ & Hshow).
  cbv zeta in E, Hshow.
  eexists _, wm, _. split; [exact E|]. cbn [hub_calls].
  split; [reflexivity|]. split; [exact Em|].
  intros token repo key value Hin.
  apply in_map_iff in Hin. destruct Hin as ([k v] & Hc & Hin).
  unfold call_of in Hc. cbn [fst snd] in Hc.
  injection Hc as _ _ -> ->.
  apply (Permutation_in _ (sorted_perm item_cmp _)) in Hin.
  unfold items in Hin.
  apply Hshow, retained_push_in_upload. apply get_In; [|exact Hin].
  rewrite filter_secrets_filter by apply read_NoDup.
  apply NoDup_keys_filter, read_NoDup.
Qed.

Lemma manual_list_covers_uploads_witness :
  exists w_push w_manual,
    Push.main Scenario.hub_ok
      (Scenario.start [u "JWT_SECRET=abc"] (Some (u "hf_token")) [])
    = (Ok tt, w_push)
    /\ hub_calls w_push
       = [(u "hf_token", Push.repo_id, u "JWT_SECRET", u "abc")]
    /\ @Upload.main unit
         (Scenario.start [u "JWT_SECRET=abc"] (Some (u "hf_token")) [])
       = (Ok tt, w_manual)
    /\ In (u "JWT_SECRET=abc" ++ [newline]) (stdout w_manual).
Proof.
  destruct (@manual_list_covers_uploads unit Scenario.hub_ok
              (Scenario.start [u "JWT_SECRET=abc"] (Some (u "hf_token")) [])
              [u "JWT_SECRET=abc"] (u "hf_token") eq_refl eq_refl eq_refl)
    as (wp & wm & calls & Hpush & Hcalls & Hmanual & Hcover).
  assert (Hc : hub_calls wp
               = [(u "hf_token", Push.repo_id, u "JWT_SECRET", u "abc")]).
  { vm_compute in Hpush. now inversion Hpush. }
  exists wp, wm. split; [exact Hpush|]. split; [exact Hc|].
  split; [exact Hmanual|].
  apply (Hcover (u "hf_token") Push.repo_id (u "JWT_SECRET") (u "abc")).
  rewrite Hc in Hcalls. cbn [hub_calls Scenario.start app] in Hcalls.
  rewrite <- Hcalls. now left.
Defined.

(* ================================================================== *)
(** ** More about masking *)

Lemma masked_short (v : str) :
  length v <= 4 -> slice v None (Some 4%Z) ++ u "..." = v ++ u "...".
Proof.
  intros Hv. change (Some 4%Z) with (Some (Z.of_nat 4)).
  rewrite slice_prefix. now rewrite firstn_all2.
Qed.

(** X14: a value of at most four characters is not masked at all by
    either variant: it is shown in full, followed by the ellipsis. *)
Theorem short_value_is_shown_in_full (v : str) :
  length v <= 4 ->
  Push.masked v = v ++ u "..." /\ Upload.masked v = v ++ u "...".
Proof.
  intros Hv. unfold Push.masked, Upload.masked.
  destruct (Nat.ltb_spec 14 (length v)) as [?|_]; [lia|].
  destruct (Nat.ltb_spec 16 (length v)) as [?|_]; [lia|].
  split; now apply masked_short.
Qed.

Lemma short_value_is_shown_in_full_witness :
  Push.masked (u "dev") = u "dev..." /\ Upload.masked (u "dev") = u "dev...".
Proof.
  apply (@short_value_is_shown_in_full (u "dev")). vm_compute. lia.
Defined.

Lemma hidden_split (n : nat) (v : str) :
  n + 4 <= length v ->
  v = firstn n v ++ hidden n v ++ skipn (length v - 4) v.
Proof.
  intros Hv. unfold hidden.
  rewrite <- (firstn_skipn n v) at 1. f_equal.
  rewrite <- (firstn_skipn (length v - n - 4) (skipn n v)) at 1. f_equal.
  rewrite skipn_skipn. f_equal. lia.
Qed.

Lemma hidden_length (n : nat) (v : str) :
  n + 4 <= length v -> length (hidden n v) = length v - n - 4.
Proof.
  intros Hv. unfold hidden. rewrite length_firstn, length_skipn. lia.
Qed.

(** X15: a value longer than the threshold of a variant (14 for the
    remote-call one, 16 for the manual one) is the shown prefix, at least
    five hidden characters, and the shown last four; its masked form has a
    fixed length (13 and 15), so it tells nothing about the hidden part,
    not even its length. *)
Theorem long_value_hides_its_middle (v : str) :
  (14 < length v ->
   v = firstn 6 v ++ hidden 6 v ++ skipn (length v - 4) v
   /\ 5 <= length (hidden 6 v)
   /\ Push.masked v = firstn 6 v ++ u "..." ++ skipn (length v - 4) v
   /\ length (Push.masked v) = 13)
  /\ (16 < length v ->
      v = firstn 8 v ++ hidden 8 v ++ skipn (length v - 4) v
      /\ 5 <= length (hidden 8 v)
      /\ Upload.masked v = firstn 8 v ++ u "..." ++ skipn (length v - 4) v
      /\ length (Upload.masked v) = 15).
Proof.
  unfold Push.masked, Upload.masked.
  change (Some 6%Z) with (Some (Z.of_nat 6)).
  change (Some 8%Z) with (Some (Z.of_nat 8)).
  change (Some (-4)%Z) with (Some (- Z.of_nat 4)%Z).
  rewrite !slice_prefix, slice_suffix by lia.
  split; intros Hv.
  - apply Nat.ltb_lt in Hv as Hb. rewrite Hb.
    split; [apply hidden_split; lia|].
    split; [rewrite hidden_length; lia|]. split; [reflexivity|].
    rewrite !length_app, length_firstn, length_skipn. cbn [length u map].
    vm_compute (length (u "...")). lia.
  - apply Nat.ltb_lt in Hv as Hb. rewrite Hb.
    split; [apply hidden_split; lia|].
    split; [rewrite hidden_length; lia|]. split; [reflexivity|].
    rewrite !length_app, length_firstn, length_skipn.
    vm_compute (length (u "...")). lia.
Qed.

Lemma long_value_hides_its_middle_witness :
  Push.masked (u "gsk_0123456789abcdef") = u "gsk_01...cdef"
  /\ hidden 6 (u "gsk_0123456789abcdef") = u "23456789ab".
Proof.
  destruct (long_value_hides_its_middle (u "gsk_0123456789abcdef"))
    as [Hpush _].
  destruct Hpush as (_ & _ & Hmask & _).
  - vm_compute. lia.
  - split; [rewrite Hmask|]; reflexivity.
Defined.

(* ================================================================== *)
(** ** The invariants at work *)

Lemma parsed_mapping_invariant_witness :
  exists secrets,
    read_lines empty [u "JWT_SECRET='s3cret'"; u "NODE_ENV=your-env"]
    = Ok secrets
    /\ In (u "JWT_SECRET", u "s3cret") (items secrets)
    /\ is_real (u "s3cret") = true
    /\ str_in (u "=") (u "JWT_SECRET") = false.
Proof.
  destruct (parsed_mapping_invariant
              [u "JWT_SECRET='s3cret'"; u "NODE_ENV=your-env"])
    as (secrets & Hread & Hinv).
  assert (Hs : secrets = [(u "JWT_SECRET", u "s3cret")]).
  { vm_compute in Hread. now inversion Hread. }
  assert (Hin : In (u "JWT_SECRET", u "s3cret") (items secrets)).
  { rewrite Hs. now left. }
  destruct (Hinv _ _ Hin) as (Hreal & Hkey & _).
  exists secrets. split; [exact Hread|]. split; [exact Hin|].
  split; [exact Hreal | exact Hkey].
Defined.

Lemma filter_secrets_idempotent_witness :
  exists secrets,
    read_lines empty [u "GROQ_API_KEY_1=gsk_1"; u "RANDOM_VAR=hello"]
    = Ok secrets
    /\ filter_secrets Push.important_keys
         (filter_secrets Push.important_keys secrets)
       = filter_secrets Push.important_keys secrets
    /\ get secrets (u "GROQ_API_KEY_1") = Some (u "gsk_1").
Proof.
  destruct (filter_secrets_idempotent
              [u "GROQ_API_KEY_1=gsk_1"; u "RANDOM_VAR=hello"])
    as (secrets & Hread & Hspec).
  destruct (Hspec Push.important_keys) as (Hidem & _ & Hsub & _).
  assert (Hs : secrets = [(u "GROQ_API_KEY_1", u "gsk_1");
                          (u "RANDOM_VAR", u "hello")]).
  { vm_compute in Hread. now inversion Hread. }
  exists secrets. split; [exact Hread|]. split; [exact Hidem|].
  apply Hsub. rewrite Hs. reflexivity.
Defined.
